(** * count_intercom_users: classification and aggregation of Intercom profiles

    A shallow embedding of the non-test path of [count_intercom_users.py]:
    the window filter, the grouping of profiles by email, the categorisation
    loop with its subscription and fee-waiver helpers, the shuffles and the
    final [result] record, followed by the properties of that pipeline.
    Around it: the timestamps and the paged fetch before it, the batch
    tagging, the configuration and the payload for Coda after it, each with
    the outside world (the endpoints, the clock's sleeps) as an explicit
    argument or log. *)

From Stdlib Require Import String Ascii List ZArith Bool Arith Lia Permutation.
Import ListNotations.
Local Open Scope string_scope.
Local Open Scope list_scope.

(** ** Data model *)

(** A JSON leaf as Python sees it after [response.json()]: the values of the
    custom attributes and of a tag's fields.  Intercom stores scalars there;
    a number is kept as an integer, which is all the code can tell of it (it
    only tests such values for being a string or for equality with one). *)
Inductive value : Type :=
| VNone
| VBool (b : bool)
| VInt (z : Z)
| VStr (s : string).

(** A flat Python dict with string keys, in insertion order. *)
Definition dict (V : Type) : Type := list (string * V).

(** [d.get(k)] with an explicit default. *)
Fixpoint dict_get {V : Type} (k : string) (d : dict V) (default : V) : V :=
  match d with
  | [] => default
  | (k', v) :: d' => if String.eqb k k' then v else dict_get k d' default
  end.

(** [k in d]. *)
Fixpoint dict_mem {V : Type} (k : string) (d : dict V) : bool :=
  match d with
  | [] => false
  | (k', _) :: d' => String.eqb k k' || dict_mem k d'
  end.

(** [d[k]]: a missing key raises KeyError, rendered as [None]. *)
Fixpoint dict_lookup {V : Type} (k : string) (d : dict V) : option V :=
  match d with
  | [] => None
  | (k', v) :: d' => if String.eqb k k' then Some v else dict_lookup k d'
  end.

(** [d[k] = v]: an existing key keeps its position, a new key goes last. *)
Fixpoint dict_set {V : Type} (k : string) (v : V) (d : dict V) : dict V :=
  match d with
  | [] => [(k, v)]
  | (k', v') :: d' =>
      if String.eqb k k' then (k', v) :: d' else (k', v') :: dict_set k v d'
  end.

Definition dict_keys {V : Type} (d : dict V) : list string := map fst d.

(** The [tags] object of a contact: [{"type": "list", "data": [...]}];
    [tags_data = None] is a [tags] object without the [data] key. *)
Record tag_list : Type := {
  tags_data : option (list (dict value))
}.

(** One contact of the search response.  Each field is what [user.get(key)]
    finds: [None] for a key that is absent (or, for [email], [external_id]
    and [id], JSON null).  When present, [last_seen_at] is an epoch-second
    integer, [custom_attributes] a mapping and [tags] the list object of the
    contact model. *)
Record user : Type := {
  u_id : option string;
  u_email : option string;
  u_external_id : option string;
  u_last_seen_at : option Z;
  u_custom_attributes : option (dict value);
  u_tags : option tag_list
}.

(** Python truthiness of an optional string: [None] and [""] are falsy. *)
Definition truthy (s : option string) : bool :=
  match s with
  | Some s' => negb (String.eqb s' "")
  | None => false
  end.

(** ** Subscription mapping and ranking *)

Definition SUBSCRIPTION_RANKS : dict nat :=
  [ (* 7S2 values *)
    ("admin", 5); ("Administrator", 5); ("Staff", 5);
    ("coach", 4); ("live", 3); ("core", 2); ("free", 1);
    (* 7S1 values *)
    ("Coaching", 4); ("Live", 3); ("Yearly + Live", 3);
    ("Core", 2); ("Free Trial", 1) ].

(** [user.get("custom_attributes", {})]. *)
Definition custom_attributes (u : user) : dict value :=
  match u_custom_attributes u with
  | Some d => d
  | None => []
  end.

Definition get_subscription_rank (u : user) (is_7s2 : bool) : nat :=
  let sub_val :=
    if is_7s2 then dict_get "sub" (custom_attributes u) VNone
    else dict_get "lsat_course" (custom_attributes u) VNone in
  match sub_val with
  | VNone => 0
  | VStr s => if String.eqb s "" then 0 else dict_get s SUBSCRIPTION_RANKS 0
  | VBool _ | VInt _ => 0   (* hashable, and no key of the table equals it *)
  end.

Definition get_highest_subscription (users_7s1 users_7s2 : list user) : nat :=
  let max_rank := 0 in
  let max_rank :=
    fold_left (fun max_rank u => Nat.max max_rank (get_subscription_rank u false))
              users_7s1 max_rank in
  let max_rank :=
    fold_left (fun max_rank u => Nat.max max_rank (get_subscription_rank u true))
              users_7s2 max_rank in
  max_rank.

Definition rank_map : list (nat * string) :=
  [ (5, "Admin"); (4, "Coach"); (3, "Live"); (2, "Core"); (1, "Free");
    (0, "Unknown") ].

Fixpoint rank_map_get (rank : nat) (m : list (nat * string)) (default : string)
  : string :=
  match m with
  | [] => default
  | (r, name) :: m' => if Nat.eqb rank r then name else rank_map_get rank m' default
  end.

Definition rank_to_subscription (rank : nat) : string :=
  rank_map_get rank rank_map "Unknown".

(** ** Fee waiver *)

Definition FEE_WAIVER_TAG_ID : string := "11173348".

(** ASCII lower-casing of one byte.  Strings are UTF-8 byte sequences; Python
    lower-cases code points, which differs from this on non-ASCII letters only,
    and no non-ASCII letter lower-cases to a run of bytes that can complete the
    ASCII word looked for below. *)
Definition lower_ascii (c : ascii) : ascii :=
  let n := nat_of_ascii c in
  if ((65 <=? n) && (n <=? 90))%nat then ascii_of_nat (n + 32) else c.

Fixpoint lower (s : string) : string :=
  match s with
  | EmptyString => EmptyString
  | String c s' => String (lower_ascii c) (lower s')
  end.

(** [needle in hay] on strings. *)
Fixpoint str_contains (needle hay : string) : bool :=
  String.prefix needle hay ||
  match hay with
  | EmptyString => false
  | String _ hay' => str_contains needle hay'
  end.

(** [tag.get("id") == FEE_WAIVER_TAG_ID]. *)
Definition tag_id_is (id : string) (tag : dict value) : bool :=
  match dict_get "id" tag VNone with
  | VStr s => String.eqb s id
  | _ => false
  end.

(** [user.get("tags", {}).get("data", [])]. *)
Definition tags_of (u : user) : list (dict value) :=
  match u_tags u with
  | Some t => match tags_data t with Some l => l | None => [] end
  | None => []
  end.

Definition is_fee_waiver (u : user) : bool :=
  if existsb (tag_id_is FEE_WAIVER_TAG_ID) (tags_of u) then true
  else
    let purchase_names :=
      dict_get "lsat_purchase_names" (custom_attributes u) (VStr "") in
    match purchase_names with
    | VStr s => str_contains "waiver" (lower s)
    | _ => false   (* isinstance(purchase_names, str) fails *)
    end.

(** ** Errors

    The only exception the classification code can raise on such profiles is
    the KeyError of a subscript [d[k]]; [None] stands for it. *)
Definition bind {A B : Type} (m : option A) (f : A -> option B) : option B :=
  match m with
  | Some a => f a
  | None => None
  end.

Notation "x <- m ;; k" := (bind m (fun x => k))
  (at level 61, m at next level, right associativity).

(** A [for] loop whose body may raise. *)
Fixpoint for_each {S A : Type} (body : S -> A -> option S) (l : list A) (st : S)
  : option S :=
  match l with
  | [] => Some st
  | a :: l' => st' <- body st a ;; for_each body l' st'
  end.

(** ** Step 3: the precise time window *)

(** [user.get("last_seen_at", 0)]. *)
Definition last_seen_at (u : user) : Z :=
  match u_last_seen_at u with
  | Some t => t
  | None => 0%Z
  end.

Definition accurate_users (min_last_seen_timestamp : Z)
  (all_users_from_api : list user) : list user :=
  filter (fun u => (min_last_seen_timestamp <? last_seen_at u)%Z)
         all_users_from_api.

(** ** Step 4: grouping by email *)

Inductive group : Type := G7S1 | G7S2 | GOther.

(** The value [{"7S1": [], "7S2": [], "Other": []}] stored per email. *)
Record email_group : Type := {
  g_7S1 : list user;
  g_7S2 : list user;
  g_Other : list user
}.

Definition empty_group : email_group :=
  {| g_7S1 := []; g_7S2 := []; g_Other := [] |}.

Definition members (gr : group) (g : email_group) : list user :=
  match gr with
  | G7S1 => g_7S1 g
  | G7S2 => g_7S2 g
  | GOther => g_Other g
  end.

(** [users[group].append(user)]. *)
Definition group_append (gr : group) (u : user) (g : email_group) : email_group :=
  match gr with
  | G7S1 => {| g_7S1 := g_7S1 g ++ [u]; g_7S2 := g_7S2 g; g_Other := g_Other g |}
  | G7S2 => {| g_7S1 := g_7S1 g; g_7S2 := g_7S2 g ++ [u]; g_Other := g_Other g |}
  | GOther => {| g_7S1 := g_7S1 g; g_7S2 := g_7S2 g; g_Other := g_Other g ++ [u] |}
  end.

Definition group_of (u : user) : group :=
  let external_id := u_external_id u in
  if truthy external_id then
    match external_id with
    | Some s => if String.prefix "usr" s then G7S2 else G7S1
    | None => GOther
    end
  else GOther.

Definition group_user (all_users_by_email : dict email_group) (u : user)
  : option (dict email_group) :=
  let email := u_email u in
  if negb (truthy email) then Some all_users_by_email   (* continue *)
  else
    match email with
    | None => Some all_users_by_email
    | Some email =>
        let gr := group_of u in
        let all_users_by_email :=
          if negb (dict_mem email all_users_by_email)
          then dict_set email empty_group all_users_by_email
          else all_users_by_email in
        users <- dict_lookup email all_users_by_email ;;
        Some (dict_set email (group_append gr u users) all_users_by_email)
    end.

Definition group_users (accurate : list user) : option (dict email_group) :=
  for_each group_user accurate [].

(** ** Step 5: categorisation *)

Record cell : Type := { regular : nat; fee_waiver : nat }.

Definition subscription_buckets : list string :=
  ["Unknown"; "Admin"; "Coach"; "Live"; "Core"; "Free"].

(** [{sub: {"regular": 0, "fee_waiver": 0} for sub in subscription_buckets}]. *)
Definition empty_breakdown : dict cell :=
  map (fun sub => (sub, {| regular := 0; fee_waiver := 0 |})) subscription_buckets.

(** [subscription_counts], one table per category key. *)
Record counts : Type := {
  c_only_7s2 : dict cell;
  c_only_7s1 : dict cell;
  c_both : dict cell
}.

(** [table[subscription]["fee_waiver"] += 1] or [... ["regular"] += 1]. *)
Definition bump (fw : bool) (subscription : string) (table : dict cell)
  : option (dict cell) :=
  c <- dict_lookup subscription table ;;
  Some (dict_set subscription
          (if fw then {| regular := regular c; fee_waiver := fee_waiver c + 1 |}
           else {| regular := regular c + 1; fee_waiver := fee_waiver c |})
          table).

(** The variables the categorisation loop updates. *)
Record cat_state : Type := {
  only_7s2 : list string;
  only_7s1 : list string;
  both : list string;
  emails_with_multiple_profiles : nat;
  profiles_in_both_category : nat;
  only_7s1_profile_ids : list string;
  subscription_counts : counts
}.

Definition cat_init : cat_state :=
  {| only_7s2 := []; only_7s1 := []; both := [];
     emails_with_multiple_profiles := 0;
     profiles_in_both_category := 0;
     only_7s1_profile_ids := [];
     subscription_counts :=
       {| c_only_7s2 := empty_breakdown;
          c_only_7s1 := empty_breakdown;
          c_both := empty_breakdown |} |}.

(** The per-email figures of the loop body. *)
Definition total_profiles_for_email (users : email_group) : nat :=
  length (g_7S1 users) + length (g_7S2 users).

Definition has_active_7s1 (users : email_group) : bool :=
  (0 <? length (g_7S1 users))%nat.

Definition has_active_7s2 (users : email_group) : bool :=
  (0 <? length (g_7S2 users))%nat.

Definition highest_rank (users : email_group) : nat :=
  get_highest_subscription (g_7S1 users) (g_7S2 users).

(** The [for ... break] search over [users["7S1"] + users["7S2"]]. *)
Definition group_fee_waiver (users : email_group) : bool :=
  existsb is_fee_waiver (g_7S1 users ++ g_7S2 users).

(** The ids collected for tagging: [user.get("id")] when truthy. *)
Definition profile_ids (l : list user) : list string :=
  flat_map (fun u => match u_id u with
                     | Some i => if truthy (Some i) then [i] else []
                     | None => []
                     end) l.

Definition categorize_email (st : cat_state) (item : string * email_group)
  : option cat_state :=
  let (email, users) := item in
  let multiple :=
    if (1 <? total_profiles_for_email users)%nat
    then emails_with_multiple_profiles st + 1
    else emails_with_multiple_profiles st in
  let subscription := rank_to_subscription (highest_rank users) in
  let fw := group_fee_waiver users in
  let sc := subscription_counts st in
  if has_active_7s2 users && negb (has_active_7s1 users) then
    t <- bump fw subscription (c_only_7s2 sc) ;;
    Some {| only_7s2 := only_7s2 st ++ [email];
            only_7s1 := only_7s1 st;
            both := both st;
            emails_with_multiple_profiles := multiple;
            profiles_in_both_category := profiles_in_both_category st;
            only_7s1_profile_ids := only_7s1_profile_ids st;
            subscription_counts :=
              {| c_only_7s2 := t; c_only_7s1 := c_only_7s1 sc;
                 c_both := c_both sc |} |}
  else if has_active_7s1 users && negb (has_active_7s2 users) then
    t <- bump fw subscription (c_only_7s1 sc) ;;
    Some {| only_7s2 := only_7s2 st;
            only_7s1 := only_7s1 st ++ [email];
            both := both st;
            emails_with_multiple_profiles := multiple;
            profiles_in_both_category := profiles_in_both_category st;
            only_7s1_profile_ids :=
              only_7s1_profile_ids st ++ profile_ids (g_7S1 users);
            subscription_counts :=
              {| c_only_7s2 := c_only_7s2 sc; c_only_7s1 := t;
                 c_both := c_both sc |} |}
  else if has_active_7s1 users && has_active_7s2 users then
    t <- bump fw subscription (c_both sc) ;;
    Some {| only_7s2 := only_7s2 st;
            only_7s1 := only_7s1 st;
            both := both st ++ [email];
            emails_with_multiple_profiles := multiple;
            profiles_in_both_category :=
              profiles_in_both_category st + total_profiles_for_email users;
            only_7s1_profile_ids := only_7s1_profile_ids st;
            subscription_counts :=
              {| c_only_7s2 := c_only_7s2 sc; c_only_7s1 := c_only_7s1 sc;
                 c_both := t |} |}
  else
    Some {| only_7s2 := only_7s2 st;
            only_7s1 := only_7s1 st;
            both := both st;
            emails_with_multiple_profiles := multiple;
            profiles_in_both_category := profiles_in_both_category st;
            only_7s1_profile_ids := only_7s1_profile_ids st;
            subscription_counts := sc |}.

(** [for email, users in all_users_by_email.items(): ...]. *)
Definition categorize (all_users_by_email : dict email_group) : option cat_state :=
  for_each categorize_email all_users_by_email cat_init.

(** ** Step 6: shuffles and the final result *)

Record category_result : Type := {
  count : nat;
  sample : list string;
  subscription_breakdown : dict cell
}.

Record result : Type := {
  total_unique_emails : nat;
  total_profiles_in_window : nat;
  r_emails_with_multiple_profiles : nat;
  r_only_7s2 : category_result;
  r_only_7s1 : category_result;
  r_both : category_result;
  total_profiles_in_this_category : nat   (* carried by ["both"] *)
}.

Section Pipeline.

(** [random.shuffle] reorders a list in place, drawing from the generator:
    the generator's state is threaded through the three calls, and all that
    is known of an outcome is that it is a permutation of the list. *)
Variable rng : Type.
Variable shuffle : rng -> list string -> list string * rng.

Definition build_result (seed : rng) (accurate : list user)
  (all_users_by_email : dict email_group) (st : cat_state) : result :=
  let (only_7s2, g1) := shuffle seed (only_7s2 st) in
  let (only_7s1, g2) := shuffle g1 (only_7s1 st) in
  let (both, _) := shuffle g2 (both st) in
  let sc := subscription_counts st in
  {| total_unique_emails := length all_users_by_email;
     total_profiles_in_window := length accurate;
     r_emails_with_multiple_profiles := emails_with_multiple_profiles st;
     r_only_7s2 :=
       {| count := length only_7s2;
          sample := firstn 10 only_7s2;
          subscription_breakdown := c_only_7s2 sc |};
     r_only_7s1 :=
       {| count := length only_7s1;
          sample := firstn 10 only_7s1;
          subscription_breakdown := c_only_7s1 sc |};
     r_both :=
       {| count := length both;
          sample := firstn 10 both;
          subscription_breakdown := c_both sc |};
     total_profiles_in_this_category := profiles_in_both_category st |}.

(** The main execution outside test mode, from the fetched profiles on. *)
Definition run (seed : rng) (min_last_seen_timestamp : Z)
  (all_users_from_api : list user) : option result :=
  let accurate := accurate_users min_last_seen_timestamp all_users_from_api in
  all_users_by_email <- group_users accurate ;;
  st <- categorize all_users_by_email ;;
  Some (build_result seed accurate all_users_by_email st).

End Pipeline.

(** ** What the properties are stated against

    The figures below are read off the profile list itself, with the loop's
    own tests: which profiles carry an email, and which group a profile
    falls in. *)

Definition group_eqb (a b : group) : bool :=
  match a, b with
  | G7S1, G7S1 | G7S2, G7S2 | GOther, GOther => true
  | _, _ => false
  end.

(** [u] is kept by the grouping loop and filed under [e]. *)
Definition has_email (e : string) (u : user) : bool :=
  match u_email u with
  | Some e' => truthy (Some e') && String.eqb e' e
  | None => false
  end.

(** The profiles of the window filed under email [e] in group [gr]. *)
Definition profiles_of (accurate : list user) (e : string) (gr : group)
  : list user :=
  filter (fun u => has_email e u && group_eqb (group_of u) gr) accurate.

Definition n_7s1 (accurate : list user) (e : string) : nat :=
  length (profiles_of accurate e G7S1).

Definition n_7s2 (accurate : list user) (e : string) : nat :=
  length (profiles_of accurate e G7S2).

Definition n_other (accurate : list user) (e : string) : nat :=
  length (profiles_of accurate e GOther).

(** The distinct emails of the window. *)
Definition distinct_emails (accurate : list user) : list string :=
  nodup string_dec
    (flat_map (fun u => match u_email u with
                        | Some e => if truthy (Some e) then [e] else []
                        | None => []
                        end) accurate).

(** What the grouping loop has built once it has gone through [done]. *)
Record grouped (d : dict email_group) (done : list user) : Prop := {
  grouped_nodup : NoDup (dict_keys d);
  grouped_keys :
    forall e, In e (dict_keys d) <-> exists u, In u done /\ has_email e u = true;
  grouped_members :
    forall e g, dict_lookup e d = Some g ->
                forall gr, members gr g = profiles_of done e gr
}.

(** *** Invariants of the two loops *)

(** Every breakdown table still has the six subscription names as keys. *)
Definition tables_ok (sc : counts) : Prop :=
  dict_keys (c_only_7s2 sc) = subscription_buckets /\
  dict_keys (c_only_7s1 sc) = subscription_buckets /\
  dict_keys (c_both sc) = subscription_buckets.

(** The three branch tests of the loop body. *)
Definition goes_only_7s2 (it : string * email_group) : bool :=
  has_active_7s2 (snd it) && negb (has_active_7s1 (snd it)).

Definition goes_only_7s1 (it : string * email_group) : bool :=
  has_active_7s1 (snd it) && negb (has_active_7s2 (snd it)).

Definition goes_both (it : string * email_group) : bool :=
  has_active_7s1 (snd it) && has_active_7s2 (snd it).

Definition is_multiple (it : string * email_group) : bool :=
  (1 <? total_profiles_for_email (snd it))%nat.

(** *** The same tests and figures per email *)

(** The branch tests and per-email figures, read off the profile list. *)
Definition email_only_7s2 (accurate : list user) (e : string) : bool :=
  (0 <? n_7s2 accurate e)%nat && negb (0 <? n_7s1 accurate e)%nat.

Definition email_only_7s1 (accurate : list user) (e : string) : bool :=
  (0 <? n_7s1 accurate e)%nat && negb (0 <? n_7s2 accurate e)%nat.

Definition email_both (accurate : list user) (e : string) : bool :=
  (0 <? n_7s1 accurate e)%nat && (0 <? n_7s2 accurate e)%nat.

Definition email_multiple (accurate : list user) (e : string) : bool :=
  (1 <? n_7s1 accurate e + n_7s2 accurate e)%nat.

(** Every profile the window files under [e] is in group Other. *)
Definition all_other (accurate : list user) (e : string) : bool :=
  forallb (fun u => negb (has_email e u) || group_eqb (group_of u) GOther)
          accurate.

(** The emails all of whose profiles are in group Other. *)
Definition other_only_emails (accurate : list user) : list string :=
  filter (all_other accurate) (distinct_emails accurate).

(** The emails with at least one 7S1 and at least one 7S2 profile. *)
Definition both_emails (accurate : list user) : list string :=
  filter (email_both accurate) (distinct_emails accurate).

(** The emails with more than one 7S1 or 7S2 profile in total. *)
Definition multiple_profile_emails (accurate : list user) : list string :=
  filter (email_multiple accurate) (distinct_emails accurate).

(** The same with the profiles of group Other counted in, as the
    specification words it. *)
Definition multiple_profile_emails_with_other (accurate : list user)
  : list string :=
  filter (fun e => (1 <? n_7s1 accurate e + n_7s2 accurate e
                        + n_other accurate e)%nat)
         (distinct_emails accurate).

Definition email_neither (accurate : list user) (e : string) : bool :=
  negb (0 <? n_7s1 accurate e)%nat && negb (0 <? n_7s2 accurate e)%nat.

(** *** Samples and test data *)

(** [c] reports a bucket whose full email list is [bucket]: the count is the
    list's length and the sample is the first ten of a reordering of it. *)
Definition is_sample_of (bucket : list string) (c : category_result) : Prop :=
  count c = length bucket /\
  length (sample c) <= 10 /\
  (forall e, In e (sample c) -> In e bucket) /\
  exists shuffled,
    Permutation bucket shuffled /\ sample c = firstn 10 shuffled.

(** A generator without state whose shuffle reverses the list. *)
Definition reverse_shuffle (g : unit) (l : list string) : list string * unit :=
  (rev l, g).

Definition profile (id email external_id : option string) (seen : option Z)
  (attrs : option (dict value)) (tags : option tag_list) : user :=
  {| u_id := id; u_email := email; u_external_id := external_id;
     u_last_seen_at := seen; u_custom_attributes := attrs; u_tags := tags |}.

(** A window used to exercise the pipeline: one email on 7S1 only (with a
    second profile without external id), one on both systems, one profile
    without email, one email with a single profile without external id. *)
Definition sample_window : list user :=
  [ profile (Some "p1") (Some "ann@example.com") (Some "1001") (Some 500%Z)
      (Some [("lsat_course", VStr "Live"); ("lsat_purchase_names", VStr "Live Plan")])
      None;
    profile (Some "p2") (Some "ann@example.com") None (Some 510%Z) None None;
    profile (Some "p3") (Some "bob@example.com") (Some "usr_77") (Some 520%Z)
      (Some [("sub", VStr "core")])
      (Some {| tags_data := Some [[("type", VStr "tag"); ("id", VStr "11173348")]] |});
    profile (Some "p4") (Some "bob@example.com") (Some "2002") (Some 530%Z)
      (Some [("lsat_course", VStr "Coaching"); ("lsat_purchase_names", VInt 7)])
      (Some {| tags_data := None |});
    profile (Some "p5") None (Some "3003") (Some 540%Z) (Some []) None;
    profile (Some "p6") (Some "cy@example.com") None (Some 550%Z) None None;
    profile (Some "p7") (Some "dee@example.com") (Some "usr_9") None None None ].

(** *** Vocabularies *)

(** The two halves of [SUBSCRIPTION_RANKS], as its comments divide it. *)
Definition vocabulary_7s2 : dict nat :=
  [ ("admin", 5); ("Administrator", 5); ("Staff", 5);
    ("coach", 4); ("live", 3); ("core", 2); ("free", 1) ].

Definition vocabulary_7s1 : dict nat :=
  [ ("Coaching", 4); ("Live", 3); ("Yearly + Live", 3);
    ("Core", 2); ("Free Trial", 1) ].

Definition own_vocabulary (is_7s2 : bool) : dict nat :=
  if is_7s2 then vocabulary_7s2 else vocabulary_7s1.

(** The raw field read for a profile of the given system. *)
Definition raw_subscription (u : user) (is_7s2 : bool) : value :=
  dict_get (if is_7s2 then "sub" else "lsat_course") (custom_attributes u) VNone.

(** The resolver as the specification words it: the raw field looked up in
    the vocabulary of the profile's own system only. *)
Definition rank_in_own_vocabulary (u : user) (is_7s2 : bool) : nat :=
  match raw_subscription u is_7s2 with
  | VStr s => dict_get s (own_vocabulary is_7s2) 0
  | _ => 0
  end.

(** *** Breakdown cells *)

(** The count a breakdown table holds for a subscription name, on its
    fee-waiver or its regular side; 0 for a name the table lacks. *)
Definition cell_count (fw : bool) (name : string) (table : dict cell) : nat :=
  match dict_lookup name table with
  | Some c => if fw then fee_waiver c else regular c
  | None => 0
  end.

(** The emails of the grouped map that the loop counts under [name] and
    waiver flag [fw], among those passing the branch test [goes]. *)
Definition counted_under (goes : string * email_group -> bool) (name : string)
  (fw : bool) (d : dict email_group) : list (string * email_group) :=
  filter (fun it => goes it
                    && String.eqb (rank_to_subscription (highest_rank (snd it))) name
                    && Bool.eqb (group_fee_waiver (snd it)) fw) d.

(** *** Sizes of the grouped map *)

(** The number of profiles filed under one email. *)
Definition group_size (g : email_group) : nat :=
  length (g_7S1 g) + length (g_7S2 g) + length (g_Other g).

(** The number of profiles filed in the whole map. *)
Definition filed_profiles (d : dict email_group) : nat :=
  list_sum (map (fun it => group_size (snd it)) d).

(** The subscription name and the fee-waiver flag the loop computes for an
    email, read off the window. *)
Definition email_subscription (accurate : list user) (e : string) : string :=
  rank_to_subscription
    (get_highest_subscription (profiles_of accurate e G7S1)
                              (profiles_of accurate e G7S2)).

Definition email_fee_waiver (accurate : list user) (e : string) : bool :=
  existsb is_fee_waiver
    (profiles_of accurate e G7S1 ++ profiles_of accurate e G7S2).

(** The emails counted under a subscription name and waiver flag, among the
    distinct emails passing the test [goes]. *)
Definition counted_emails (goes : string -> bool) (accurate : list user)
  (name : string) (fw : bool) : list string :=
  filter (fun e => goes e
                   && String.eqb (email_subscription accurate e) name
                   && Bool.eqb (email_fee_waiver accurate e) fw)
         (distinct_emails accurate).

(** The sum of all the cells of a breakdown table. *)
Definition breakdown_total (table : dict cell) : nat :=
  list_sum (map (fun kv => regular (snd kv) + fee_waiver (snd kv)) table).

(** Two results report the same figures; their samples may differ. *)
Definition same_figures (r r' : result) : Prop :=
  total_unique_emails r = total_unique_emails r' /\
  total_profiles_in_window r = total_profiles_in_window r' /\
  r_emails_with_multiple_profiles r = r_emails_with_multiple_profiles r' /\
  count (r_only_7s2 r) = count (r_only_7s2 r') /\
  count (r_only_7s1 r) = count (r_only_7s1 r') /\
  count (r_both r) = count (r_both r') /\
  total_profiles_in_this_category r = total_profiles_in_this_category r' /\
  forall fw name,
    cell_count fw name (subscription_breakdown (r_only_7s2 r)) =
      cell_count fw name (subscription_breakdown (r_only_7s2 r')) /\
    cell_count fw name (subscription_breakdown (r_only_7s1 r)) =
      cell_count fw name (subscription_breakdown (r_only_7s1 r')) /\
    cell_count fw name (subscription_breakdown (r_both r)) =
      cell_count fw name (subscription_breakdown (r_both r')).

(** ** Tagging the 7S1 profiles in batches *)

(** What one call of [tag_batch_of_users] does, as the loop around it can
    tell: it returns, or it raises a [RequestException] that carries the
    response ([raise_for_status] on a 4xx or 5xx answer; [retry_after] is the
    integer of the Retry-After header, [None] without the header), or it
    raises a [RequestException] without response (no connection, timeout),
    whose [response] attribute is [None]. *)
Inductive tag_outcome : Type :=
| TagOk
| TagRefused (status_code : nat) (retry_after : option nat)
| TagNoResponse.

(** What the loop does to the outside, in order: the POST of a batch under
    a tag name, and [time.sleep]. *)
Inductive tag_event : Type :=
| Posted (tag_name : string) (batch : list string)
| Slept (seconds : nat).

Record tag_state : Type := {
  successful_tags : nat;
  failed_batches : nat;
  tag_log : list tag_event
}.

(** [range(0, stop, step)]; a zero step raises ValueError. *)
Definition py_range (stop step : nat) : option (list nat) :=
  if (step =? 0)%nat then None
  else Some (map (fun k => k * step) (seq 0 ((stop + step - 1) / step))).

(** [l[i:i + n]]. *)
Definition slice {A : Type} (l : list A) (i n : nat) : list A :=
  firstn n (skipn i l).

(** One iteration of the loop; [api] answers the call for batch number
    [batch_num].  In the handler [hasattr(e, 'response')] holds for every
    [RequestException], so an exception without response fails on
    [e.response.status_code] with an AttributeError that nothing catches. *)
Definition tag_batch (api : nat -> list string -> tag_outcome)
  (profile_ids : list string) (tag_name : string) (batch_size : nat)
  (st : tag_state) (i : nat) : option tag_state :=
  let total_profiles := length profile_ids in
  let batch := slice profile_ids i batch_size in
  let batch_num := i / batch_size + 1 in
  st <- match api batch_num batch with
        | TagOk =>
            Some {| successful_tags := successful_tags st + length batch;
                    failed_batches := failed_batches st;
                    tag_log := tag_log st ++ [Posted tag_name batch] |}
        | TagRefused status_code retry_after =>
            Some {| successful_tags := successful_tags st;
                    failed_batches := failed_batches st + 1;
                    tag_log :=
                      tag_log st ++ [Posted tag_name batch] ++
                      (if (status_code =? 429)%nat
                       then [Slept (match retry_after with
                                    | Some n => n
                                    | None => 10
                                    end)]
                       else []) |}
        | TagNoResponse => None
        end ;;
  Some (if (i + batch_size <? total_profiles)%nat
        then {| successful_tags := successful_tags st;
                failed_batches := failed_batches st;
                tag_log := tag_log st ++ [Slept 2] |}
        else st).

(** The function's result with the log of what it did; [None] when it
    raises (the ValueError of a zero batch size, the AttributeError above). *)
Definition tag_7s1_profiles_in_batches (api : nat -> list string -> tag_outcome)
  (profile_ids : list string) (tag_name : string) (batch_size : nat)
  : option (nat * nat * list tag_event) :=
  match profile_ids with
  | [] => Some (0, 0, [])
  | _ :: _ =>
      let total_profiles := length profile_ids in
      indices <- py_range total_profiles batch_size ;;
      st <- for_each (tag_batch api profile_ids tag_name batch_size) indices
              {| successful_tags := 0; failed_batches := 0; tag_log := [] |} ;;
      Some (successful_tags st, failed_batches st, tag_log st)
  end.

(** The batches posted, in order. *)
Definition posted_batches (log : list tag_event) : list (list string) :=
  flat_map (fun ev => match ev with
                      | Posted _ batch => [batch]
                      | Slept _ => []
                      end) log.

(** The seconds slept in total. *)
Definition slept_seconds (log : list tag_event) : nat :=
  list_sum (map (fun ev => match ev with
                           | Posted _ _ => 0
                           | Slept n => n
                           end) log).

(** The number of batches of a list: its length over the batch size,
    rounded up. *)
Definition batch_count (total batch_size : nat) : nat :=
  (total + batch_size - 1) / batch_size.

(** The answer to the call of the iteration at index [i]. *)
Definition tag_call (api : nat -> list string -> tag_outcome)
  (profile_ids : list string) (batch_size i : nat) : tag_outcome :=
  api (i / batch_size + 1) (slice profile_ids i batch_size).

Definition tag_call_ok (o : tag_outcome) : bool :=
  match o with
  | TagOk => true
  | _ => false
  end.

(** The seconds slept in the handler after the answer [o]. *)
Definition wait_after (o : tag_outcome) : nat :=
  match o with
  | TagRefused status_code retry_after =>
      if (status_code =? 429)%nat
      then match retry_after with Some n => n | None => 10 end
      else 0
  | _ => 0
  end.

(** ** Step 8: tagging, as the main execution runs it *)

Record tagging_results : Type := {
  total_profiles_to_tag : nat;
  successfully_tagged : nat;
  tr_failed_batches : nat
}.

(** The tagging block of the main execution: the [tagging_results] put in
    the result, if any, and the log of the tagging run; [None] when the
    tagging run raises. *)
Definition tagging_step (TAG_MODE TEST_MODE : bool)
  (api : nat -> list string -> tag_outcome) (only_7s1_profile_ids : list string)
  : option (option tagging_results * list tag_event) :=
  if TAG_MODE && negb TEST_MODE then
    match only_7s1_profile_ids with
    | _ :: _ =>
        r <- tag_7s1_profiles_in_batches api only_7s1_profile_ids
               "Recently Active on 7S1 Only" 50 ;;
        let '(successful_tags, failed_batches, log) := r in
        Some (Some {| total_profiles_to_tag := length only_7s1_profile_ids;
                      successfully_tagged := successful_tags;
                      tr_failed_batches := failed_batches |}, log)
    | [] =>
        Some (Some {| total_profiles_to_tag := 0;
                      successfully_tagged := 0;
                      tr_failed_batches := 0 |}, [])
    end
  else Some (None, []).

(** ** Step 7: the payload for Coda *)

(** The dict handed to [send_to_coda], with the keys it looks at: a category
    may be absent, and so may the keys the caller adds. *)
Record coda_data : Type := {
  cd_only_7s2 : option category_result;
  cd_only_7s1 : option category_result;
  cd_both : option category_result;
  cd_run_id : option string;
  cd_timestamp : option Z;
  cd_tagging_results : option tagging_results
}.

Record count_row : Type := {
  category : string;
  subscription : string;
  row_fee_waiver : bool;
  total : nat
}.

Record coda_payload : Type := {
  p_run_id : string;
  p_timestamp : Z;
  p_recency_days : Z;
  p_counts : list count_row;
  p_tagging_results : option tagging_results
}.

Definition category_map : list (string * string) :=
  [("only_7s2", "7S2"); ("only_7s1", "7S1"); ("both", "Both")].

Definition subscriptions : list string :=
  ["Unknown"; "Admin"; "Coach"; "Live"; "Core"; "Free"].

(** [data.get(internal_name)] for the three category keys. *)
Definition data_category (data : coda_data) (internal_name : string)
  : option category_result :=
  if String.eqb internal_name "only_7s2" then cd_only_7s2 data
  else if String.eqb internal_name "only_7s1" then cd_only_7s1 data
  else if String.eqb internal_name "both" then cd_both data
  else None.

(** The inner loop: two rows per subscription, the regular count first. *)
Definition append_subscription_rows (display_name : string)
  (c : category_result) (counts_array : list count_row) (subscription : string)
  : option (list count_row) :=
  cell <- dict_lookup subscription (subscription_breakdown c) ;;
  Some (counts_array ++
        [ {| category := display_name; subscription := subscription;
             row_fee_waiver := false; total := regular cell |};
          {| category := display_name; subscription := subscription;
             row_fee_waiver := true; total := fee_waiver cell |} ]).

(** The outer loop over [category_map.items()]. *)
Definition append_category_rows (data : coda_data)
  (counts_array : list count_row) (item : string * string)
  : option (list count_row) :=
  let (internal_name, display_name) := item in
  match data_category data internal_name with
  | None => Some counts_array   (* continue *)
  | Some c =>
      for_each (append_subscription_rows display_name c) subscriptions
               counts_array
  end.

(** The JSON body [send_to_coda] posts; [None] for the KeyError of a
    missing subscription, run id or timestamp. *)
Definition send_to_coda (RECENCY_DAYS : Z) (data : coda_data)
  : option coda_payload :=
  counts_array <- for_each (append_category_rows data) category_map [] ;;
  run_id <- cd_run_id data ;;
  timestamp <- cd_timestamp data ;;
  Some {| p_run_id := run_id;
          p_timestamp := timestamp;
          p_recency_days := RECENCY_DAYS;
          p_counts := counts_array;
          p_tagging_results := cd_tagging_results data |}.

(** ** Configuration *)

(** [get_config]: [environ] is [os.environ.get]; [config_json] is the object
    read from config.json, [None] when the file is missing or is not JSON. *)
Definition get_config (environ : string -> option string)
  (config_json : option (dict value)) : dict value :=
  let config := [] in
  let config :=
    if truthy (environ "CODA_WEBHOOK_URL")
    then match environ "CODA_WEBHOOK_URL" with
         | Some coda_webhook => dict_set "coda_webhook_url" (VStr coda_webhook) config
         | None => config
         end
    else config in
  let config :=
    if truthy (environ "CODA_API_TOKEN")
    then match environ "CODA_API_TOKEN" with
         | Some coda_token => dict_set "coda_api_token" (VStr coda_token) config
         | None => config
         end
    else config in
  match config_json with
  | Some file_config =>
      let config :=
        if negb (dict_mem "coda_webhook_url" config)
        then dict_set "coda_webhook_url"
               (dict_get "coda_webhook_url" file_config VNone) config
        else config in
      let config :=
        if negb (dict_mem "coda_api_token" config)
        then dict_set "coda_api_token"
               (dict_get "coda_api_token" file_config VNone) config
        else config in
      config
  | None => config
  end.

(** [get_token] returns a value or leaves through [sys.exit(1)]. *)
Inductive token_result : Type :=
| Token (token : value)
| Exit1.

Definition get_token (environ : string -> option string)
  (config_json : option (dict value)) : token_result :=
  if truthy (environ "INTERCOM_TOKEN")
  then match environ "INTERCOM_TOKEN" with
       | Some token => Token (VStr token)
       | None => Exit1
       end
  else match config_json with
       | Some config => Token (dict_get "intercom_token" config VNone)
       | None => Exit1
       end.

(** Python truthiness of a JSON leaf. *)
Definition value_truthy (v : value) : bool :=
  match v with
  | VNone => false
  | VBool b => b
  | VInt z => negb (z =? 0)%Z
  | VStr s => negb (String.eqb s "")
  end.

(** The last block of the main execution: the body posted to the webhook,
    [Some None] when nothing is sent for want of a URL or token, [None]
    when building the body raises. *)
Definition report_to_coda (environ : string -> option string)
  (config_json : option (dict value)) (RECENCY_DAYS : Z) (r : result)
  (tagging : option tagging_results) (run_id : string) (now : Z)
  : option (option coda_payload) :=
  let config := get_config environ config_json in
  let webhook_url := dict_get "coda_webhook_url" config VNone in
  let api_token := dict_get "coda_api_token" config VNone in
  if value_truthy webhook_url && value_truthy api_token then
    payload <- send_to_coda RECENCY_DAYS
                 {| cd_only_7s2 := Some (r_only_7s2 r);
                    cd_only_7s1 := Some (r_only_7s1 r);
                    cd_both := Some (r_both r);
                    cd_run_id := Some run_id;
                    cd_timestamp := Some now;
                    cd_tagging_results := tagging |} ;;
    Some (Some payload)
  else Some None.

(** The rows of one category. *)
Definition rows_of (display_name : string) (c : category_result)
  : list count_row :=
  flat_map (fun subscription =>
              [ {| category := display_name; subscription := subscription;
                   row_fee_waiver := false;
                   total := cell_count false subscription
                              (subscription_breakdown c) |};
                {| category := display_name; subscription := subscription;
                   row_fee_waiver := true;
                   total := cell_count true subscription
                              (subscription_breakdown c) |} ])
           subscriptions.

(** The sum of the totals of the rows of a category. *)
Definition rows_total (display_name : string) (rows : list count_row) : nat :=
  list_sum (map total
              (filter (fun row => String.eqb (category row) display_name) rows)).

(** The rows of a category that may be absent. *)
Definition rows_of_present (display_name : string) (c : option category_result)
  : list count_row :=
  match c with
  | Some c => rows_of display_name c
  | None => []
  end.

(** A category that is present has the six subscription names. *)
Definition has_subscriptions (c : option category_result) : Prop :=
  match c with
  | Some c =>
      forall name, In name subscriptions ->
                   In name (dict_keys (subscription_breakdown c))
  | None => True
  end.

(** What an environment variable or else config.json gives for a key. *)
Definition configured (environ : string -> option string)
  (config_json : option (dict value)) (variable key : string) : value :=
  match environ variable with
  | Some s => if String.eqb s "" then
                match config_json with
                | Some file_config => dict_get key file_config VNone
                | None => VNone
                end
              else VStr s
  | None => match config_json with
            | Some file_config => dict_get key file_config VNone
            | None => VNone
            end
  end.

(** 1 for a category the data has, 0 for one it lacks. *)
Definition present_count (c : option category_result) : nat :=
  match c with
  | Some _ => 1
  | None => 0
  end.

(** ** Step 1: the timestamps *)

(** [now - RECENCY_DAYS * 86400], the start of the window. *)
Definition min_last_seen_timestamp (now RECENCY_DAYS : Z) : Z :=
  (now - RECENCY_DAYS * 86400)%Z.

(** [int(time.mktime(time.gmtime(t)[:3] + (0,0,0,0,0,0)))] for the start [t]
    of the window: the first three fields of [gmtime] are the UTC date of
    [t], and [mktime] reads the tuple as midnight of that date in local
    time, which is the UTC midnight less [utc_offset], the seconds local
    time is ahead of UTC. *)
Definition day_of_window_start (utc_offset now RECENCY_DAYS : Z) : Z :=
  let t := min_last_seen_timestamp now RECENCY_DAYS in
  (t - t mod 86400 - utc_offset)%Z.

Definition query_start_timestamp (utc_offset now RECENCY_DAYS : Z) : Z :=
  (day_of_window_start utc_offset now RECENCY_DAYS - 86400)%Z.

(** ** Step 2: fetching the pages *)

(** What the search endpoint answers to one request, as [fetch_all_users]
    tells the cases apart: status 429 (with the integer of its Retry-After
    header, if any); a [RequestException] (no connection, or another 4xx or
    5xx through [raise_for_status]); a body with an ['errors'] key; or a
    page, with its [data] list and, when [pages.next] is a non-empty object,
    the [starting_after] of it. *)
Inductive api_response : Type :=
| RateLimited (retry_after : option nat)
| RequestFailed
| ErrorBody
| Page (users_on_page : list user) (next : option (option string)).

Inductive fetch_result : Type :=
| Fetched (all_users : list user)
| Exited            (* sys.exit(1) *)
| StillFetching.    (* the loop has not ended within the requests allowed *)

(** The requests made, each with the cursor sent and the answer got, and
    the sleeps. *)
Inductive fetch_event : Type :=
| Asked (starting_after : option string) (answer : api_response)
| Waited (seconds : nat).

(** The [while True] loop, for at most [fuel] requests; [api] answers the
    request number [n] carrying the cursor given.  The body carries
    [starting_after] only when it is truthy. *)
Fixpoint fetch_loop (api : nat -> option string -> api_response) (fuel n : nat)
  (all_users : list user) (starting_after : option string) (retry_count : nat)
  (log : list fetch_event) : fetch_result * list fetch_event :=
  match fuel with
  | 0 => (StillFetching, log)
  | S fuel' =>
      let cursor := if truthy starting_after then starting_after else None in
      let answer := api n cursor in
      let log := log ++ [Asked cursor answer] in
      match answer with
      | RateLimited retry_after =>
          if (5 <=? retry_count)%nat then (Exited, log)
          else
            fetch_loop api fuel' (S n) all_users starting_after
              (retry_count + 1)
              (log ++ [Waited (match retry_after with
                               | Some seconds => seconds
                               | None => 10
                               end)])
      | RequestFailed => (Exited, log)
      | ErrorBody => (Exited, log)
      | Page users_on_page next =>
          let all_users := all_users ++ users_on_page in
          match next with
          | None => (Fetched all_users, log)
          | Some starting_after =>
              fetch_loop api fuel' (S n) all_users starting_after 0 log
          end
      end
  end.

Definition fetch_all_users (api : nat -> option string -> api_response)
  (fuel : nat) : fetch_result * list fetch_event :=
  fetch_loop api fuel 0 [] None 0 [].

(** The users of the pages received, in order. *)
Definition users_received (log : list fetch_event) : list user :=
  flat_map (fun ev => match ev with
                      | Asked _ (Page users_on_page _) => users_on_page
                      | _ => []
                      end) log.

(** The number of requests answered with status 429. *)
Definition rate_limited_requests (log : list fetch_event) : nat :=
  length (filter (fun ev => match ev with
                            | Asked _ (RateLimited _) => true
                            | _ => false
                            end) log).

(** The number of requests made. *)
Definition requests_made (log : list fetch_event) : nat :=
  length (filter (fun ev => match ev with
                            | Asked _ _ => true
                            | Waited _ => false
                            end) log).

(** The cursor the next request carries after the events of [log], when it
    carried [current] before them: the truthy [starting_after] of the last
    page received. *)
Fixpoint cursor_after (log : list fetch_event) (current : option string)
  : option string :=
  match log with
  | [] => current
  | Asked _ (Page _ (Some starting_after)) :: log' =>
      cursor_after log' (if truthy starting_after then starting_after else None)
  | _ :: log' => cursor_after log' current
  end.

(** An endpoint used to exercise the fetch: a 429, the first page, another
    429 and the last page. *)
Definition sample_api (n : nat) (starting_after : option string) : api_response :=
  match n with
  | 0 => RateLimited None
  | 1 => Page (firstn 2 sample_window) (Some (Some "cursor-1"))
  | 2 => RateLimited (Some 3)
  | _ => Page (skipn 2 sample_window) None
  end.

(** ** Dictionaries *)

Section DictFacts.

Context {V : Type}.
Implicit Types (d : dict V) (k : string) (v : V).

Lemma dict_mem_In k d : dict_mem k d = true <-> In k (dict_keys d).
Proof.
  induction d as [|[k' v'] d IH]; simpl.
  - split; [discriminate | tauto].
  - rewrite orb_true_iff, IH, String.eqb_eq. intuition congruence.
Qed.

Lemma dict_mem_false k d : dict_mem k d = false <-> ~ In k (dict_keys d).
Proof.
  rewrite <- dict_mem_In. destruct (dict_mem k d); intuition congruence.
Qed.

Lemma dict_lookup_keys k d v :
  dict_lookup k d = Some v -> In k (dict_keys d).
Proof.
  induction d as [|[k' v'] d IH]; simpl; [discriminate|].
  destruct (String.eqb_spec k k'); auto.
Qed.

Lemma dict_lookup_None k d :
  dict_lookup k d = None <-> ~ In k (dict_keys d).
Proof.
  induction d as [|[k' v'] d IH]; simpl; [tauto|].
  destruct (String.eqb_spec k k') as [->|Hne].
  - split; [discriminate | intros H; exfalso; auto].
  - rewrite IH. intuition congruence.
Qed.

Lemma dict_lookup_present k d :
  In k (dict_keys d) -> exists v, dict_lookup k d = Some v.
Proof.
  intros Hin. destruct (dict_lookup k d) as [v|] eqn:E; eauto.
  apply dict_lookup_None in E. contradiction.
Qed.

Lemma dict_lookup_set_eq k v d : dict_lookup k (dict_set k v d) = Some v.
Proof.
  induction d as [|[k' v'] d IH]; simpl.
  - now rewrite String.eqb_refl.
  - destruct (String.eqb_spec k k') as [->|Hne]; simpl.
    + now rewrite String.eqb_refl.
    + destruct (String.eqb_spec k k'); [contradiction | exact IH].
Qed.

Lemma dict_lookup_set_neq k k' v d :
  k <> k' -> dict_lookup k' (dict_set k v d) = dict_lookup k' d.
Proof.
  intros Hne. induction d as [|[k0 v0] d IH]; simpl.
  - destruct (String.eqb_spec k' k); [congruence | reflexivity].
  - destruct (String.eqb_spec k k0) as [->|Hk]; simpl.
    + destruct (String.eqb_spec k' k0); [congruence | reflexivity].
    + now rewrite IH.
Qed.

Lemma dict_keys_set_in k v d :
  In k (dict_keys d) -> dict_keys (dict_set k v d) = dict_keys d.
Proof.
  induction d as [|[k' v'] d IH]; simpl; [tauto|].
  intros Hin. destruct (String.eqb_spec k k') as [->|Hne]; simpl.
  - reflexivity.
  - f_equal. apply IH. destruct Hin; congruence.
Qed.

Lemma dict_keys_set_notin k v d :
  ~ In k (dict_keys d) -> dict_keys (dict_set k v d) = dict_keys d ++ [k].
Proof.
  induction d as [|[k' v'] d IH]; simpl; [reflexivity|].
  intros Hnin. destruct (String.eqb_spec k k') as [->|Hne]; simpl.
  - exfalso; auto.
  - f_equal. apply IH. tauto.
Qed.

Lemma dict_lookup_In k v d :
  NoDup (dict_keys d) -> (In (k, v) d <-> dict_lookup k d = Some v).
Proof.
  induction d as [|[k' v'] d IH]; simpl; intros Hnd.
  - split; [tauto | discriminate].
  - inversion Hnd as [|? ? Hnin Hnd']; subst.
    destruct (String.eqb_spec k k') as [->|Hne].
    + split.
      * intros [H|H]; [congruence|].
        exfalso. apply Hnin. change k' with (fst (k', v)).
        now apply in_map.
      * intros H. left. congruence.
    + rewrite <- (IH Hnd'). split; [intros [H|H]; [congruence | exact H] | auto].
Qed.

End DictFacts.

(** ** The grouping loop *)

Lemma has_email_truthy e u : has_email e u = true -> u_email u = Some e /\ e <> "".
Proof.
  unfold has_email. destruct (u_email u) as [e'|]; [|discriminate].
  rewrite andb_true_iff. simpl. intros [Ht He].
  apply String.eqb_eq in He. subst e'. split; [reflexivity|].
  intros ->. discriminate.
Qed.

Lemma has_email_self e u :
  u_email u = Some e -> e <> "" -> has_email e u = true.
Proof.
  unfold has_email. intros -> Hne. simpl.
  rewrite String.eqb_refl. destruct (String.eqb_spec e ""); [contradiction|reflexivity].
Qed.

Lemma has_email_skipped u :
  truthy (u_email u) = false -> forall e, has_email e u = false.
Proof.
  unfold has_email. intros H e. destruct (u_email u); [|reflexivity].
  now rewrite H.
Qed.

Lemma has_email_other e e' u :
  u_email u = Some e -> e <> e' -> has_email e' u = false.
Proof.
  unfold has_email. intros -> Hne.
  destruct (String.eqb_spec e e'); [contradiction|]. apply andb_false_r.
Qed.

Lemma profiles_of_app l1 l2 e gr :
  profiles_of (l1 ++ l2) e gr = profiles_of l1 e gr ++ profiles_of l2 e gr.
Proof. apply filter_app. Qed.

Lemma profiles_of_none done e gr :
  (forall u, In u done -> has_email e u = false) -> profiles_of done e gr = [].
Proof.
  intros H. unfold profiles_of. induction done as [|u l IH]; simpl; [reflexivity|].
  rewrite (H u (or_introl eq_refl)). simpl. apply IH. intros; apply H; now right.
Qed.

Lemma profiles_of_In accurate e gr u :
  In u (profiles_of accurate e gr) <->
  In u accurate /\ has_email e u = true /\ group_of u = gr.
Proof.
  unfold profiles_of. rewrite filter_In, andb_true_iff.
  assert (Hg : group_eqb (group_of u) gr = true <-> group_of u = gr)
    by (destruct (group_of u), gr; simpl; intuition congruence).
  rewrite Hg. tauto.
Qed.

Lemma members_group_append gr gr' u g :
  members gr' (group_append gr u g) =
  members gr' g ++ (if group_eqb gr gr' then [u] else []).
Proof. destruct gr, gr'; simpl; now rewrite ?app_nil_r. Qed.

Lemma grouped_nil : grouped [] [].
Proof.
  constructor; simpl.
  - constructor.
  - intros e. split; [tauto | intros (u & [] & _)].
  - discriminate.
Qed.

Lemma group_user_grouped d done u :
  grouped d done ->
  exists d', group_user d u = Some d' /\ grouped d' (done ++ [u]).
Proof.
  intros [Hnd Hkeys Hmem]. unfold group_user.
  destruct (truthy (u_email u)) eqn:Ht; simpl.
  2:{ (* the profile is skipped *)
    exists d. split; [reflexivity|].
    pose proof (has_email_skipped u Ht) as Hskip.
    constructor; [exact Hnd | |].
    - intros e. rewrite Hkeys. split.
      + intros (u' & Hin & He). exists u'. split; [apply in_or_app; now left | exact He].
      + intros (u' & Hin & He). apply in_app_or in Hin as [Hin|[<-|[]]].
        * now exists u'.
        * rewrite Hskip in He. discriminate.
    - intros e g Hl gr. rewrite profiles_of_app, (Hmem e g Hl gr).
      unfold profiles_of at 2. simpl. rewrite Hskip. simpl. now rewrite app_nil_r. }
  destruct (u_email u) as [email|] eqn:Hemail; [|discriminate].
  assert (Hne : email <> "") by (intros ->; discriminate).
  pose proof (has_email_self email u Hemail Hne) as Hself.
  set (d1 := if negb (dict_mem email d) then dict_set email empty_group d else d).
  (* the entry the append works on *)
  assert (H1 : exists g0, dict_lookup email d1 = Some g0 /\
                          (forall gr, members gr g0 = profiles_of done email gr) /\
                          NoDup (dict_keys d1) /\
                          (forall e, In e (dict_keys d1) <-> In e (dict_keys d) \/ e = email) /\
                          (forall e, e <> email -> dict_lookup e d1 = dict_lookup e d)).
  { subst d1. destruct (dict_mem email d) eqn:Hm; simpl.
    - apply dict_mem_In in Hm. destruct (dict_lookup_present _ _ Hm) as [g0 Hg0].
      exists g0. repeat split; auto.
      + intros [H|H]; [exact H | now subst].
    - apply dict_mem_false in Hm. exists empty_group.
      split; [apply dict_lookup_set_eq|]. split.
      + intros gr. rewrite profiles_of_none; [now destruct gr|].
        intros u' Hin. destruct (has_email email u') eqn:E; [|reflexivity].
        exfalso. apply Hm, Hkeys. eauto.
      + rewrite (dict_keys_set_notin _ _ _ Hm). split; [|split].
        * apply NoDup_app; [exact Hnd | repeat constructor; simpl; tauto |].
          intros x Hx [<-|[]]. contradiction.
        * intros e. rewrite in_app_iff. simpl. intuition congruence.
        * intros e He. apply dict_lookup_set_neq. congruence. }
  destruct H1 as (g0 & Hg0 & Hm0 & Hnd1 & Hk1 & Hl1).
  rewrite Hg0. simpl.
  eexists. split; [reflexivity|].
  assert (Hin1 : In email (dict_keys d1)) by (apply Hk1; now right).
  constructor.
  - now rewrite dict_keys_set_in.
  - intros e. rewrite dict_keys_set_in by exact Hin1. rewrite Hk1, Hkeys. split.
    + intros [(u' & Hin & He)| ->].
      * exists u'. split; [apply in_or_app; now left | exact He].
      * exists u. split; [apply in_or_app; right; now left | exact Hself].
    + intros (u' & Hin & He). apply in_app_or in Hin as [Hin|[<-|[]]].
      * left. now exists u'.
      * right. apply has_email_truthy in He as [He _]. congruence.
  - intros e g Hl gr. rewrite profiles_of_app.
    destruct (string_dec e email) as [->|Hd].
    + rewrite dict_lookup_set_eq in Hl. injection Hl as <-.
      rewrite members_group_append, Hm0. f_equal.
      unfold profiles_of. simpl. rewrite Hself. simpl.
      now destruct (group_eqb (group_of u) gr).
    + rewrite dict_lookup_set_neq in Hl by congruence.
      rewrite Hl1 in Hl by exact Hd. rewrite (Hmem e g Hl gr).
      unfold profiles_of at 2. simpl.
      rewrite (has_email_other email e u Hemail) by congruence.
      simpl. now rewrite app_nil_r.
Qed.

Lemma for_each_group_user l :
  forall d done, grouped d done ->
  exists d', for_each group_user l d = Some d' /\ grouped d' (done ++ l).
Proof.
  induction l as [|u l IH]; intros d done Hg; simpl.
  - exists d. now rewrite app_nil_r.
  - destruct (group_user_grouped d done u Hg) as (d1 & -> & Hg1). simpl.
    destruct (IH d1 (done ++ [u]) Hg1) as (d' & Hd' & Hg').
    exists d'. split; [exact Hd'|]. now rewrite <- app_assoc in Hg'.
Qed.

(** The grouping loop never raises, and files every profile that has an
    email under that email and its group, in the order of the window. *)
Lemma group_users_grouped accurate :
  exists d, group_users accurate = Some d /\ grouped d accurate.
Proof. apply (for_each_group_user accurate [] [] grouped_nil). Qed.

(** ** The categorisation loop *)

Lemma rank_to_subscription_bucket rank :
  In (rank_to_subscription rank) subscription_buckets.
Proof.
  do 6 (destruct rank as [|rank]; [simpl; tauto|]).
  simpl. tauto.
Qed.

Lemma bump_keys fw s t :
  In s (dict_keys t) ->
  exists t', bump fw s t = Some t' /\ dict_keys t' = dict_keys t.
Proof.
  intros Hin. unfold bump.
  destruct (dict_lookup_present _ _ Hin) as [c ->]. simpl.
  eexists. split; [reflexivity|]. now apply dict_keys_set_in.
Qed.

(** Reduces the projections of a loop state built by a record literal. *)
Ltac cat_fields :=
  cbn [only_7s2 only_7s1 both emails_with_multiple_profiles
       profiles_in_both_category only_7s1_profile_ids subscription_counts
       c_only_7s2 c_only_7s1 c_both].

(** One iteration, field by field. *)
Lemma categorize_email_step st it :
  tables_ok (subscription_counts st) ->
  exists st',
    categorize_email st it = Some st' /\
    tables_ok (subscription_counts st') /\
    only_7s2 st' = only_7s2 st ++ (if goes_only_7s2 it then [fst it] else []) /\
    only_7s1 st' = only_7s1 st ++ (if goes_only_7s1 it then [fst it] else []) /\
    both st' = both st ++ (if goes_both it then [fst it] else []) /\
    emails_with_multiple_profiles st' =
      emails_with_multiple_profiles st + (if is_multiple it then 1 else 0) /\
    profiles_in_both_category st' =
      profiles_in_both_category st +
      (if goes_both it then total_profiles_for_email (snd it) else 0).
Proof.
  destruct it as [email users]. intros (H2 & H1 & Hb).
  unfold categorize_email, goes_only_7s2, goes_only_7s1, goes_both, is_multiple.
  cbn [fst snd].
  pose proof (rank_to_subscription_bucket (highest_rank users)) as Hs.
  assert (Hmul : (if (1 <? total_profiles_for_email users)%nat
                  then emails_with_multiple_profiles st + 1
                  else emails_with_multiple_profiles st) =
                 emails_with_multiple_profiles st +
                 (if (1 <? total_profiles_for_email users)%nat then 1 else 0))
    by (destruct (1 <? total_profiles_for_email users)%nat; lia).
  destruct (has_active_7s1 users), (has_active_7s2 users); cbn [andb negb].
  - destruct (bump_keys (group_fee_waiver users)
                 (rank_to_subscription (highest_rank users))
                 (c_both (subscription_counts st)))
      as (t & -> & Ht); [now rewrite Hb|].
    eexists. split; [reflexivity|]. unfold tables_ok. cat_fields.
    rewrite !app_nil_r, Ht. repeat split; auto.
  - destruct (bump_keys (group_fee_waiver users)
                 (rank_to_subscription (highest_rank users))
                 (c_only_7s1 (subscription_counts st)))
      as (t & -> & Ht); [now rewrite H1|].
    eexists. split; [reflexivity|]. unfold tables_ok. cat_fields.
    rewrite !app_nil_r, Ht, Nat.add_0_r. repeat split; auto.
  - destruct (bump_keys (group_fee_waiver users)
                 (rank_to_subscription (highest_rank users))
                 (c_only_7s2 (subscription_counts st)))
      as (t & -> & Ht); [now rewrite H2|].
    eexists. split; [reflexivity|]. unfold tables_ok. cat_fields.
    rewrite !app_nil_r, Ht, Nat.add_0_r. repeat split; auto.
  - eexists. split; [reflexivity|]. unfold tables_ok. cat_fields.
    rewrite !app_nil_r, Nat.add_0_r. repeat split; auto.
Qed.

(** The whole loop from any state with well-keyed tables. *)
Lemma for_each_categorize_email items :
  forall st, tables_ok (subscription_counts st) ->
  exists st',
    for_each categorize_email items st = Some st' /\
    tables_ok (subscription_counts st') /\
    only_7s2 st' = only_7s2 st ++ map fst (filter goes_only_7s2 items) /\
    only_7s1 st' = only_7s1 st ++ map fst (filter goes_only_7s1 items) /\
    both st' = both st ++ map fst (filter goes_both items) /\
    emails_with_multiple_profiles st' =
      emails_with_multiple_profiles st + length (filter is_multiple items) /\
    profiles_in_both_category st' =
      profiles_in_both_category st +
      list_sum (map (fun it => total_profiles_for_email (snd it))
                    (filter goes_both items)).
Proof.
  induction items as [|it items IH]; intros st Hok; simpl.
  - exists st. rewrite !app_nil_r, !Nat.add_0_r. repeat split; auto; apply Hok.
  - destruct (categorize_email_step st it Hok)
      as (st1 & -> & Hok1 & E2 & E1 & Eb & Em & Ep). simpl.
    destruct (IH st1 Hok1) as (st' & Hrun & Hok' & F2 & F1 & Fb & Fm & Fp).
    exists st'. split; [exact Hrun|]. split; [exact Hok'|].
    rewrite F2, F1, Fb, Fm, Fp, E2, E1, Eb, Em, Ep.
    destruct (goes_only_7s2 it), (goes_only_7s1 it), (goes_both it),
      (is_multiple it); simpl;
      rewrite <- ?app_assoc, ?app_nil_r; simpl; repeat split; auto; lia.
Qed.

(** The categorisation loop never raises; its lists and counters are the
    selections below over the items of the grouped map, in its order. *)
Lemma categorize_spec d :
  exists st,
    categorize d = Some st /\
    only_7s2 st = map fst (filter goes_only_7s2 d) /\
    only_7s1 st = map fst (filter goes_only_7s1 d) /\
    both st = map fst (filter goes_both d) /\
    emails_with_multiple_profiles st = length (filter is_multiple d) /\
    profiles_in_both_category st =
      list_sum (map (fun it => total_profiles_for_email (snd it))
                    (filter goes_both d)).
Proof.
  assert (Hok : tables_ok (subscription_counts cat_init))
    by (repeat split; reflexivity).
  destruct (for_each_categorize_email d cat_init Hok)
    as (st & Hrun & _ & H2 & H1 & Hb & Hm & Hp).
  exists st. repeat split; assumption.
Qed.

(** ** From the grouped map back to the profile list *)

Lemma map_fst_filter {A B : Type} (p : A * B -> bool) (P : A -> bool) l :
  (forall it, In it l -> p it = P (fst it)) ->
  map fst (filter p l) = filter P (map fst l).
Proof.
  induction l as [|it l IH]; intros H; simpl; [reflexivity|].
  rewrite <- (H it (or_introl eq_refl)).
  destruct (p it); simpl; rewrite IH; auto; intros; apply H; now right.
Qed.

Lemma length_filter_fst {A B : Type} (p : A * B -> bool) (P : A -> bool) l :
  (forall it, In it l -> p it = P (fst it)) ->
  length (filter p l) = length (filter P (map fst l)).
Proof.
  intros H. rewrite <- (map_fst_filter p P l H). now rewrite length_map.
Qed.

Lemma map_filter_fst {A B C : Type} (p : A * B -> bool) (P : A -> bool)
  (f : A * B -> C) (F : A -> C) l :
  (forall it, In it l -> p it = P (fst it)) ->
  (forall it, In it l -> f it = F (fst it)) ->
  map f (filter p l) = map F (filter P (map fst l)).
Proof.
  intros Hp Hf. rewrite <- (map_fst_filter p P l Hp), map_map.
  apply map_ext_in. intros it Hin. apply Hf. now apply filter_In in Hin.
Qed.

Lemma grouped_item d accurate it :
  grouped d accurate -> In it d ->
  forall gr, members gr (snd it) = profiles_of accurate (fst it) gr.
Proof.
  intros Hg Hin gr. destruct it as [e g]. simpl.
  apply (grouped_members d accurate Hg e g).
  apply dict_lookup_In; [apply (grouped_nodup d accurate Hg) | exact Hin].
Qed.

Lemma grouped_counts d accurate it :
  grouped d accurate -> In it d ->
  length (g_7S1 (snd it)) = n_7s1 accurate (fst it) /\
  length (g_7S2 (snd it)) = n_7s2 accurate (fst it).
Proof.
  intros Hg Hin. unfold n_7s1, n_7s2.
  rewrite <- (grouped_item d accurate it Hg Hin G7S1).
  rewrite <- (grouped_item d accurate it Hg Hin G7S2). now split.
Qed.

(** The loop's lists and counters in terms of the profile list. *)
Lemma categorize_grouped d accurate :
  grouped d accurate ->
  exists st,
    categorize d = Some st /\
    only_7s2 st = filter (email_only_7s2 accurate) (dict_keys d) /\
    only_7s1 st = filter (email_only_7s1 accurate) (dict_keys d) /\
    both st = filter (email_both accurate) (dict_keys d) /\
    emails_with_multiple_profiles st =
      length (filter (email_multiple accurate) (dict_keys d)) /\
    profiles_in_both_category st =
      list_sum (map (fun e => n_7s1 accurate e + n_7s2 accurate e)
                    (filter (email_both accurate) (dict_keys d))).
Proof.
  intros Hg.
  destruct (categorize_spec d) as (st & Hrun & H2 & H1 & Hb & Hm & Hp).
  exists st. split; [exact Hrun|].
  assert (E2 : forall it, In it d -> goes_only_7s2 it = email_only_7s2 accurate (fst it)).
  { intros it Hin. destruct (grouped_counts d accurate it Hg Hin) as [A B].
    unfold goes_only_7s2, email_only_7s2, has_active_7s1, has_active_7s2.
    now rewrite A, B. }
  assert (E1 : forall it, In it d -> goes_only_7s1 it = email_only_7s1 accurate (fst it)).
  { intros it Hin. destruct (grouped_counts d accurate it Hg Hin) as [A B].
    unfold goes_only_7s1, email_only_7s1, has_active_7s1, has_active_7s2.
    now rewrite A, B. }
  assert (Eb : forall it, In it d -> goes_both it = email_both accurate (fst it)).
  { intros it Hin. destruct (grouped_counts d accurate it Hg Hin) as [A B].
    unfold goes_both, email_both, has_active_7s1, has_active_7s2.
    now rewrite A, B. }
  assert (Em : forall it, In it d -> is_multiple it = email_multiple accurate (fst it)).
  { intros it Hin. destruct (grouped_counts d accurate it Hg Hin) as [A B].
    unfold is_multiple, email_multiple, total_profiles_for_email.
    now rewrite A, B. }
  assert (Et : forall it, In it d ->
                total_profiles_for_email (snd it) =
                n_7s1 accurate (fst it) + n_7s2 accurate (fst it)).
  { intros it Hin. destruct (grouped_counts d accurate it Hg Hin) as [A B].
    unfold total_profiles_for_email. now rewrite A, B. }
  rewrite H2, H1, Hb, Hm, Hp. unfold dict_keys.
  rewrite (map_fst_filter _ _ d E2), (map_fst_filter _ _ d E1),
    (map_fst_filter _ _ d Eb), (length_filter_fst _ _ d Em).
  rewrite (map_filter_fst goes_both (email_both accurate)
             (fun it => total_profiles_for_email (snd it))
             (fun e => n_7s1 accurate e + n_7s2 accurate e) d Eb Et).
  repeat split; reflexivity.
Qed.

Lemma distinct_emails_In accurate e :
  In e (distinct_emails accurate) <->
  exists u, In u accurate /\ has_email e u = true.
Proof.
  unfold distinct_emails. rewrite nodup_In, in_flat_map. split.
  - intros (u & Hin & He). exists u. split; [exact Hin|].
    destruct (u_email u) as [e'|] eqn:E; [|destruct He].
    destruct (truthy (Some e')) eqn:Ht; [|destruct He].
    destruct He as [<-|[]]. apply has_email_self; [exact E|].
    intros ->. discriminate.
  - intros (u & Hin & He). exists u. split; [exact Hin|].
    destruct (has_email_truthy e u He) as [-> Hne]. simpl.
    destruct (String.eqb_spec e ""); [contradiction | now left].
Qed.

(** The keys of the grouped map are the distinct emails of the window. *)
Lemma grouped_keys_distinct d accurate :
  grouped d accurate -> Permutation (dict_keys d) (distinct_emails accurate).
Proof.
  intros Hg. apply NoDup_Permutation.
  - apply (grouped_nodup d accurate Hg).
  - apply NoDup_nodup.
  - intros e. rewrite distinct_emails_In. apply (grouped_keys d accurate Hg).
Qed.

Lemma Permutation_filter' {A : Type} (f : A -> bool) (l l' : list A) :
  Permutation l l' -> Permutation (filter f l) (filter f l').
Proof.
  induction 1 as [|x l l' _ IH|x y l|l l' l'' _ IH1 _ IH2]; simpl.
  - constructor.
  - destruct (f x); [now constructor | exact IH].
  - destruct (f x), (f y); try reflexivity. apply perm_swap.
  - now transitivity (filter f l').
Qed.

Lemma n_pos_profile accurate e gr :
  1 <= length (profiles_of accurate e gr) <->
  exists u, In u accurate /\ has_email e u = true /\ group_of u = gr.
Proof.
  split.
  - intros H. destruct (profiles_of accurate e gr) as [|u l] eqn:E;
      [simpl in H; lia|].
    exists u. apply profiles_of_In. rewrite E. now left.
  - intros (u & Hu). apply profiles_of_In in Hu.
    destruct (profiles_of accurate e gr); [destruct Hu | simpl; lia].
Qed.

Lemma grouped_key_counts d accurate e :
  grouped d accurate ->
  (In e (dict_keys d) <->
   1 <= n_7s1 accurate e + n_7s2 accurate e + n_other accurate e).
Proof.
  intros Hg. rewrite (grouped_keys d accurate Hg). split.
  - intros (u & Hin & He).
    assert (H : 1 <= length (profiles_of accurate e (group_of u)))
      by (apply n_pos_profile; eauto).
    unfold n_7s1, n_7s2, n_other. destruct (group_of u); lia.
  - intros H.
    assert (Hor : 1 <= n_7s1 accurate e \/ 1 <= n_7s2 accurate e \/
                  1 <= n_other accurate e) by lia.
    destruct Hor as [H1|[H1|H1]]; apply n_pos_profile in H1;
      destruct H1 as (u & Hin & He & _); eauto.
Qed.

(** ** Membership in the buckets *)

Lemma filter_keys_In d accurate (P : string -> bool) e :
  grouped d accurate ->
  (P e = true ->
   1 <= n_7s1 accurate e + n_7s2 accurate e + n_other accurate e) ->
  (In e (filter P (dict_keys d)) <-> P e = true).
Proof.
  intros Hg HP. rewrite filter_In, (grouped_key_counts d accurate e Hg). tauto.
Qed.

Lemma email_only_7s1_iff accurate e :
  email_only_7s1 accurate e = true <->
  1 <= n_7s1 accurate e /\ n_7s2 accurate e = 0.
Proof.
  unfold email_only_7s1.
  rewrite andb_true_iff, negb_true_iff, Nat.ltb_lt, Nat.ltb_ge. lia.
Qed.


Lemma email_both_iff accurate e :
  email_both accurate e = true <->
  1 <= n_7s1 accurate e /\ 1 <= n_7s2 accurate e.
Proof.
  unfold email_both. rewrite andb_true_iff, !Nat.ltb_lt. lia.
Qed.

(** The window, grouped and categorised: both loops run to their end and
    leave the lists and counters described over the distinct emails. *)
Lemma window_categorized accurate :
  exists d st,
    group_users accurate = Some d /\ grouped d accurate /\
    categorize d = Some st /\
    only_7s2 st = filter (email_only_7s2 accurate) (dict_keys d) /\
    only_7s1 st = filter (email_only_7s1 accurate) (dict_keys d) /\
    both st = filter (email_both accurate) (dict_keys d) /\
    emails_with_multiple_profiles st =
      length (filter (email_multiple accurate) (dict_keys d)) /\
    profiles_in_both_category st =
      list_sum (map (fun e => n_7s1 accurate e + n_7s2 accurate e)
                    (filter (email_both accurate) (dict_keys d))).
Proof.
  destruct (group_users_grouped accurate) as (d & Hd & Hg).
  destruct (categorize_grouped d accurate Hg) as (st & Hst & H).
  exists d, st. auto.
Qed.


(** ** Counting over the distinct emails *)

Lemma length_four_way accurate l :
  length l =
  length (filter (email_only_7s1 accurate) l) +
  length (filter (email_only_7s2 accurate) l) +
  length (filter (email_both accurate) l) +
  length (filter (email_neither accurate) l).
Proof.
  induction l as [|e l IH]; simpl; [reflexivity|].
  unfold email_only_7s1, email_only_7s2, email_both, email_neither in *.
  destruct (0 <? n_7s1 accurate e)%nat, (0 <? n_7s2 accurate e)%nat; simpl; lia.
Qed.

Lemma all_other_neither accurate e :
  all_other accurate e = email_neither accurate e.
Proof.
  apply eq_true_iff_eq. unfold all_other, email_neither.
  rewrite forallb_forall, andb_true_iff, !negb_true_iff, !Nat.ltb_ge. split.
  - intros H.
    assert (N : forall gr, gr <> GOther -> length (profiles_of accurate e gr) <= 0).
    { intros gr Hgr. apply Nat.nlt_ge. intros Hpos.
      apply n_pos_profile in Hpos as (u & Hin & He & Hgu).
      specialize (H u Hin). rewrite He, Hgu in H. now destruct gr. }
    split; apply N; discriminate.
  - intros [N1 N2] u Hin.
    destruct (has_email e u) eqn:He; [|reflexivity]. simpl.
    destruct (group_of u) eqn:Hgu; [exfalso | exfalso | reflexivity].
    + assert (1 <= n_7s1 accurate e) by (apply n_pos_profile; eauto). lia.
    + assert (1 <= n_7s2 accurate e) by (apply n_pos_profile; eauto). lia.
Qed.

Lemma list_sum_two {A : Type} (f : A -> nat) l :
  (forall x, In x l -> 2 <= f x) -> 2 * length l <= list_sum (map f l).
Proof.
  induction l as [|x l IH]; intros H; simpl; [lia|].
  assert (2 <= f x) by (apply H; now left).
  assert (2 * length l <= list_sum (map f l)) by (apply IH; intros; apply H; now right).
  lia.
Qed.

(** The figures of the loop, over the distinct emails of the window. *)
Lemma window_figures accurate :
  exists d st,
    group_users accurate = Some d /\ categorize d = Some st /\
    length d =
      length (only_7s1 st) + length (only_7s2 st) + length (both st) +
      length (other_only_emails accurate) /\
    Permutation (both st) (both_emails accurate) /\
    emails_with_multiple_profiles st = length (multiple_profile_emails accurate) /\
    profiles_in_both_category st =
      list_sum (map (fun e => n_7s1 accurate e + n_7s2 accurate e)
                    (both_emails accurate)).
Proof.
  destruct (window_categorized accurate)
    as (d & st & Hd & Hg & Hst & H2 & H1 & Hb & Hm & Hp).
  exists d, st. split; [exact Hd|]. split; [exact Hst|].
  pose proof (grouped_keys_distinct d accurate Hg) as Hperm.
  repeat split.
  - rewrite H1, H2, Hb. unfold other_only_emails.
    rewrite (filter_ext _ _ (all_other_neither accurate)).
    rewrite <- (Permutation_length
                  (Permutation_filter' (email_neither accurate) _ _ Hperm)).
    rewrite <- (length_four_way accurate (dict_keys d)).
    unfold dict_keys. now rewrite length_map.
  - rewrite Hb. now apply Permutation_filter'.
  - rewrite Hm. apply Permutation_length. now apply Permutation_filter'.
  - rewrite Hp. apply Permutation_list_sum, Permutation_map.
    now apply Permutation_filter'.
Qed.

(** ** The result record *)

Lemma firstn_In {A : Type} (n : nat) (l : list A) x :
  In x (firstn n l) -> In x l.
Proof.
  intros H. rewrite <- (firstn_skipn n l). apply in_or_app. now left.
Qed.

Lemma is_sample_of_shuffled bucket shuffled sub :
  Permutation bucket shuffled ->
  is_sample_of bucket
    {| count := length shuffled; sample := firstn 10 shuffled;
       subscription_breakdown := sub |}.
Proof.
  intros Hp. unfold is_sample_of. cbn [count sample]. repeat split.
  - symmetry. now apply Permutation_length.
  - apply firstn_le_length.
  - intros e He. apply (Permutation_in e (Permutation_sym Hp)).
    now apply firstn_In in He.
  - now exists shuffled.
Qed.

Section PipelineFacts.

Variable rng : Type.
Variable shuffle : rng -> list string -> list string * rng.

(** All that is assumed of [random.shuffle]: it reorders the list. *)
Hypothesis shuffle_perm :
  forall (g : rng) (l : list string), Permutation l (fst (shuffle g l)).

Lemma build_result_counters seed accurate d st :
  let r := build_result rng shuffle seed accurate d st in
  total_unique_emails r = length d /\
  total_profiles_in_window r = length accurate /\
  r_emails_with_multiple_profiles r = emails_with_multiple_profiles st /\
  total_profiles_in_this_category r = profiles_in_both_category st.
Proof.
  unfold build_result.
  destruct (shuffle seed (only_7s2 st)) as [l2 g1].
  destruct (shuffle g1 (only_7s1 st)) as [l1 g2].
  destruct (shuffle g2 (both st)) as [lb g3].
  cbn. repeat split.
Qed.

Lemma build_result_samples seed accurate d st :
  let r := build_result rng shuffle seed accurate d st in
  is_sample_of (only_7s2 st) (r_only_7s2 r) /\
  is_sample_of (only_7s1 st) (r_only_7s1 r) /\
  is_sample_of (both st) (r_both r).
Proof.
  unfold build_result.
  pose proof (shuffle_perm seed (only_7s2 st)) as P2.
  destruct (shuffle seed (only_7s2 st)) as [l2 g1].
  pose proof (shuffle_perm g1 (only_7s1 st)) as P1.
  destruct (shuffle g1 (only_7s1 st)) as [l1 g2].
  pose proof (shuffle_perm g2 (both st)) as Pb.
  destruct (shuffle g2 (both st)) as [lb g3].
  cbn [fst] in *. cbn [r_only_7s2 r_only_7s1 r_both].
  split; [|split]; now apply is_sample_of_shuffled.
Qed.

(** The run reaches its result, built from the two loops' outcome. *)
Lemma run_result seed T all_users_from_api :
  let accurate := accurate_users T all_users_from_api in
  exists d st,
    group_users accurate = Some d /\ categorize d = Some st /\
    run rng shuffle seed T all_users_from_api =
      Some (build_result rng shuffle seed accurate d st).
Proof.
  intros accurate.
  destruct (window_categorized accurate) as (d & st & Hd & _ & Hst & _).
  exists d, st. split; [exact Hd|]. split; [exact Hst|].
  unfold run. fold accurate. rewrite Hd. simpl. rewrite Hst. reflexivity.
Qed.

End PipelineFacts.

Lemma reverse_shuffle_perm (g : unit) (l : list string) :
  Permutation l (fst (reverse_shuffle g l)).
Proof. apply Permutation_rev. Qed.

(** Everything the run reports, over the window it was given. *)
Lemma run_figures (rng : Type) (shuffle : rng -> list string -> list string * rng)
  (seed : rng) (T : Z) (all_users_from_api : list user) :
  let accurate := accurate_users T all_users_from_api in
  exists d st r,
    group_users accurate = Some d /\ categorize d = Some st /\
    run rng shuffle seed T all_users_from_api = Some r /\
    r = build_result rng shuffle seed accurate d st /\
    total_unique_emails r =
      length (only_7s1 st) + length (only_7s2 st) + length (both st) +
      length (other_only_emails accurate) /\
    Permutation (both st) (both_emails accurate) /\
    r_emails_with_multiple_profiles r = length (multiple_profile_emails accurate) /\
    total_profiles_in_this_category r =
      list_sum (map (fun e => n_7s1 accurate e + n_7s2 accurate e)
                    (both_emails accurate)).
Proof.
  intros accurate.
  destruct (window_figures accurate) as (d & st & Hd & Hst & Hlen & Hb & Hm & Hp).
  destruct (run_result rng shuffle seed T all_users_from_api)
    as (d' & st' & Hd' & Hst' & Hrun).
  fold accurate in Hd', Hrun. rewrite Hd in Hd'. injection Hd' as <-.
  rewrite Hst in Hst'. injection Hst' as <-.
  exists d, st, (build_result rng shuffle seed accurate d st).
  destruct (build_result_counters rng shuffle seed accurate d st)
    as (Ru & _ & Rm & Rp).
  rewrite Ru, Rm, Rp. repeat split; assumption.
Qed.

(** C2, as the code has it. emails_with_multiple_profiles is the number of
    distinct emails of the window whose 7S1 and 7S2 profiles together number
    more than one; profiles of group Other are not counted in that total.
    The tally does not depend on the category the email lands in. *)
Theorem C2_multiple_profiles_counts_7s1_and_7s2 :
  forall (rng : Type) (shuffle : rng -> list string -> list string * rng)
         (seed : rng) (T : Z) (all_users_from_api : list user),
  exists r,
    run rng shuffle seed T all_users_from_api = Some r /\
    r_emails_with_multiple_profiles r =
      length (filter (fun e => (1 <? n_7s1 (accurate_users T all_users_from_api) e
                                   + n_7s2 (accurate_users T all_users_from_api) e)%nat)
                     (distinct_emails (accurate_users T all_users_from_api))).
Proof.
  intros rng shuffle seed T all_users_from_api.
  destruct (run_figures rng shuffle seed T all_users_from_api)
    as (d & st & r & _ & _ & Hrun & _ & _ & _ & Hm & _).
  exists r. split; [exact Hrun | exact Hm].
Qed.

(** C2, as stated, fails: an email with one 7S1 profile and one profile
    without external id has two profiles in the window, and so has an email
    with two profiles without external id, yet the run reports no email
    with multiple profiles. *)
Lemma C2_counterexample :
  let window :=
    [ profile (Some "p1") (Some "ann@example.com") (Some "1001") (Some 500%Z)
        None None;
      profile (Some "p2") (Some "ann@example.com") None (Some 510%Z) None None;
      profile (Some "p3") (Some "cy@example.com") None (Some 520%Z) None None;
      profile (Some "p4") (Some "cy@example.com") None (Some 530%Z) None None ] in
  accurate_users 100 window = window /\
  n_7s1 window "ann@example.com" = 1 /\
  n_other window "ann@example.com" = 1 /\
  n_other window "cy@example.com" = 2 /\
  length (multiple_profile_emails_with_other window) = 2 /\
  option_map r_emails_with_multiple_profiles
    (run unit reverse_shuffle tt 100 window) = Some 0 /\
  option_map r_emails_with_multiple_profiles
    (run unit reverse_shuffle tt 100 window) <>
  Some (length (multiple_profile_emails_with_other (accurate_users 100 window))).
Proof.
  cbv zeta. repeat split; try (vm_compute; reflexivity).
  vm_compute. discriminate.
Qed.

(** C6. total_unique_emails is the sum of the three buckets' counts plus the
    number of emails all of whose profiles are in group Other. *)
Theorem C6_total_unique_emails_is_sum :
  forall (rng : Type) (shuffle : rng -> list string -> list string * rng),
    (forall g l, Permutation l (fst (shuffle g l))) ->
    forall (seed : rng) (T : Z) (all_users_from_api : list user),
    exists r,
      run rng shuffle seed T all_users_from_api = Some r /\
      total_unique_emails r =
        count (r_only_7s1 r) + count (r_only_7s2 r) + count (r_both r) +
        length (other_only_emails (accurate_users T all_users_from_api)).
Proof.
  intros rng shuffle Hperm seed T all_users_from_api.
  destruct (run_figures rng shuffle seed T all_users_from_api)
    as (d & st & r & _ & _ & Hrun & Hr & Hu & _).
  exists r. split; [exact Hrun|]. rewrite Hu. subst r.
  destruct (build_result_samples rng shuffle Hperm seed
              (accurate_users T all_users_from_api) d st)
    as ((-> & _) & (-> & _) & (-> & _)).
  reflexivity.
Qed.

Lemma C6_witness :
  (forall g l, Permutation l (fst (reverse_shuffle g l))) /\
  exists r,
    run unit reverse_shuffle tt 100 sample_window = Some r /\
    total_unique_emails r =
      count (r_only_7s1 r) + count (r_only_7s2 r) + count (r_both r) +
      length (other_only_emails (accurate_users 100 sample_window)).
Proof.
  split; [exact reverse_shuffle_perm|].
  apply (C6_total_unique_emails_is_sum unit reverse_shuffle reverse_shuffle_perm).
Defined.

(** C7. The both bucket's total_profiles_in_this_category is the sum, over
    the emails with profiles on both systems, of their 7S1 and 7S2 profile
    counts: a number of profiles, at least twice the bucket's count. *)
Theorem C7_both_profile_total :
  forall (rng : Type) (shuffle : rng -> list string -> list string * rng),
    (forall g l, Permutation l (fst (shuffle g l))) ->
    forall (seed : rng) (T : Z) (all_users_from_api : list user),
    exists r,
      run rng shuffle seed T all_users_from_api = Some r /\
      count (r_both r) =
        length (both_emails (accurate_users T all_users_from_api)) /\
      total_profiles_in_this_category r =
        list_sum (map (fun e => n_7s1 (accurate_users T all_users_from_api) e
                                + n_7s2 (accurate_users T all_users_from_api) e)
                      (both_emails (accurate_users T all_users_from_api))) /\
      2 * count (r_both r) <= total_profiles_in_this_category r.
Proof.
  intros rng shuffle Hperm seed T all_users_from_api.
  destruct (run_figures rng shuffle seed T all_users_from_api)
    as (d & st & r & _ & _ & Hrun & Hr & _ & Hb & _ & Hp).
  exists r. split; [exact Hrun|].
  assert (Hc : count (r_both r) =
               length (both_emails (accurate_users T all_users_from_api))).
  { subst r.
    destruct (build_result_samples rng shuffle Hperm seed
                (accurate_users T all_users_from_api) d st)
      as (_ & _ & (-> & _)).
    now apply Permutation_length. }
  split; [exact Hc|]. split; [exact Hp|].
  rewrite Hc, Hp. apply list_sum_two.
  intros e He. apply filter_In in He as [_ He].
  apply email_both_iff in He. lia.
Qed.

Lemma C7_witness :
  (forall g l, Permutation l (fst (reverse_shuffle g l))) /\
  exists r,
    run unit reverse_shuffle tt 100 sample_window = Some r /\
    count (r_both r) = length (both_emails (accurate_users 100 sample_window)) /\
    total_profiles_in_this_category r =
      list_sum (map (fun e => n_7s1 (accurate_users 100 sample_window) e
                              + n_7s2 (accurate_users 100 sample_window) e)
                    (both_emails (accurate_users 100 sample_window))) /\
    2 * count (r_both r) <= total_profiles_in_this_category r.
Proof.
  split; [exact reverse_shuffle_perm|].
  apply (C7_both_profile_total unit reverse_shuffle reverse_shuffle_perm).
Defined.

(** C8. Whatever the shuffles return, each bucket's sample has at most ten
    emails, every one of them in that bucket's email list: the sample is the
    first ten elements of a reordering of the list. *)
Theorem C8_samples_bounded_and_from_bucket :
  forall (rng : Type) (shuffle : rng -> list string -> list string * rng),
    (forall g l, Permutation l (fst (shuffle g l))) ->
    forall (seed : rng) (T : Z) (all_users_from_api : list user),
    exists d st r,
      group_users (accurate_users T all_users_from_api) = Some d /\
      categorize d = Some st /\
      run rng shuffle seed T all_users_from_api = Some r /\
      is_sample_of (only_7s2 st) (r_only_7s2 r) /\
      is_sample_of (only_7s1 st) (r_only_7s1 r) /\
      is_sample_of (both st) (r_both r).
Proof.
  intros rng shuffle Hperm seed T all_users_from_api.
  destruct (run_figures rng shuffle seed T all_users_from_api)
    as (d & st & r & Hd & Hst & Hrun & Hr & _).
  exists d, st, r. split; [exact Hd|]. split; [exact Hst|].
  split; [exact Hrun|]. subst r.
  apply (build_result_samples rng shuffle Hperm).
Qed.

Lemma C8_witness :
  (forall g l, Permutation l (fst (reverse_shuffle g l))) /\
  exists d st r,
    group_users (accurate_users 100 sample_window) = Some d /\
    categorize d = Some st /\
    run unit reverse_shuffle tt 100 sample_window = Some r /\
    is_sample_of (only_7s2 st) (r_only_7s2 r) /\
    is_sample_of (only_7s1 st) (r_only_7s1 r) /\
    is_sample_of (both st) (r_both r).
Proof.
  split; [exact reverse_shuffle_perm|].
  apply (C8_samples_bounded_and_from_bucket unit reverse_shuffle
           reverse_shuffle_perm).
Defined.

(** ** Subscription ranks *)

Lemma dict_get_absent {V : Type} (k : string) (d : dict V) (default : V) :
  ~ In k (dict_keys d) -> dict_get k d default = default.
Proof.
  induction d as [|[k' v] d IH]; simpl; [reflexivity|].
  intros H. destruct (String.eqb_spec k k') as [->|Hne].
  - exfalso. auto.
  - apply IH. tauto.
Qed.

Lemma get_subscription_rank_table u is_7s2 :
  get_subscription_rank u is_7s2 =
  match raw_subscription u is_7s2 with
  | VStr s => dict_get s SUBSCRIPTION_RANKS 0
  | _ => 0
  end.
Proof.
  unfold get_subscription_rank, raw_subscription.
  destruct is_7s2;
    match goal with
    | |- context [dict_get ?k ?d VNone] => destruct (dict_get k d VNone) as [| | |s]
    end; try reflexivity;
    destruct (String.eqb_spec s "") as [->|]; reflexivity.
Qed.

(** C3, as the code has it. The resolver reads the field of the profile's
    system (lsat_course for 7S1, sub for 7S2) and looks the value up in the
    one table SUBSCRIPTION_RANKS, which holds the vocabularies of both
    systems: a word of the profile's own system gets its rank, a word of
    the other system gets the rank it has there (never 0), and only a value
    in neither vocabulary, or one that is not a string, resolves to 0. *)
Theorem C3_rank_from_shared_table :
  forall (u : user) (is_7s2 : bool),
    SUBSCRIPTION_RANKS = vocabulary_7s2 ++ vocabulary_7s1 /\
    get_subscription_rank u is_7s2 =
      match raw_subscription u is_7s2 with
      | VStr s => dict_get s SUBSCRIPTION_RANKS 0
      | _ => 0
      end /\
    (forall s, raw_subscription u is_7s2 = VStr s ->
       (In s (dict_keys (own_vocabulary is_7s2)) ->
        get_subscription_rank u is_7s2 = dict_get s (own_vocabulary is_7s2) 0) /\
       (In s (dict_keys (own_vocabulary (negb is_7s2))) ->
        get_subscription_rank u is_7s2 =
          dict_get s (own_vocabulary (negb is_7s2)) 0 /\
        1 <= get_subscription_rank u is_7s2) /\
       (~ In s (dict_keys SUBSCRIPTION_RANKS) ->
        get_subscription_rank u is_7s2 = 0)).
Proof.
  intros u is_7s2. split; [reflexivity|].
  split; [apply get_subscription_rank_table|].
  intros s Hraw. rewrite get_subscription_rank_table, Hraw.
  split; [|split].
  - destruct is_7s2; simpl; intros H;
      repeat (destruct H as [<-|H]; [reflexivity|]); destruct H.
  - destruct is_7s2; simpl; intros H;
      repeat (destruct H as [<-|H]; [split; [reflexivity | simpl; lia]|]);
      destruct H.
  - apply dict_get_absent.
Qed.

(** C3, as stated, fails: a 7S1 profile whose lsat_course is the 7S2 word
    "live" (or "core") does not resolve to 0 but to the rank of that word. *)
Lemma C3_counterexample :
  let u := profile (Some "p1") (Some "ann@example.com") (Some "1001")
             (Some 500%Z) (Some [("lsat_course", VStr "live")]) None in
  let v := profile (Some "p2") (Some "bob@example.com") (Some "1002")
             (Some 500%Z) (Some [("lsat_course", VStr "core")]) None in
  group_of u = G7S1 /\ group_of v = G7S1 /\
  raw_subscription u false = VStr "live" /\
  raw_subscription v false = VStr "core" /\
  ~ In "live" (dict_keys vocabulary_7s1) /\
  ~ In "core" (dict_keys vocabulary_7s1) /\
  rank_in_own_vocabulary u false = 0 /\
  rank_in_own_vocabulary v false = 0 /\
  get_subscription_rank u false = 3 /\
  get_subscription_rank v false = 2 /\
  get_subscription_rank u false <> 0 /\
  get_subscription_rank v false <> 0.
Proof.
  cbv zeta. repeat split; try reflexivity; try discriminate;
    simpl; intros H; repeat (destruct H as [H|H]; [discriminate H|]); destruct H.
Qed.

(** ** The highest subscription of an email *)

Section FoldMax.

Variable f : user -> nat.

Let step (m : nat) (u : user) : nat := Nat.max m (f u).

Lemma fold_max_ge l : forall acc, acc <= fold_left step l acc.
Proof.
  induction l as [|u l IH]; intros acc; simpl; [lia|].
  specialize (IH (step acc u)). unfold step in *. lia.
Qed.

Lemma fold_max_upper l : forall acc u, In u l -> f u <= fold_left step l acc.
Proof.
  induction l as [|x l IH]; intros acc u Hin; simpl; [destruct Hin|].
  destruct Hin as [->|Hin]; [|now apply IH].
  pose proof (fold_max_ge l (step acc u)). unfold step in *. lia.
Qed.

Lemma fold_max_attained l :
  forall acc, fold_left step l acc = acc \/
              exists u, In u l /\ f u = fold_left step l acc.
Proof.
  induction l as [|x l IH]; intros acc; simpl; [now left|].
  destruct (IH (step acc x)) as [E|(u & Hin & E)].
  - rewrite E. unfold step. destruct (Nat.max_spec acc (f x)) as [[_ ->]|[_ ->]].
    + right. exists x. auto.
    + now left.
  - right. exists u. auto.
Qed.

End FoldMax.

Lemma get_highest_subscription_max users_7s1 users_7s2 :
  let h := get_highest_subscription users_7s1 users_7s2 in
  (forall u, In u users_7s1 -> get_subscription_rank u false <= h) /\
  (forall u, In u users_7s2 -> get_subscription_rank u true <= h) /\
  (h = 0 \/
   (exists u, In u users_7s1 /\ get_subscription_rank u false = h) \/
   (exists u, In u users_7s2 /\ get_subscription_rank u true = h)).
Proof.
  unfold get_highest_subscription.
  pose (f1 := fun u => get_subscription_rank u false).
  pose (f2 := fun u => get_subscription_rank u true).
  pose (mid := fold_left (fun m u => Nat.max m (f1 u)) users_7s1 0).
  change (let h := fold_left (fun m u => Nat.max m (f2 u)) users_7s2 mid in
          (forall u, In u users_7s1 -> f1 u <= h) /\
          (forall u, In u users_7s2 -> f2 u <= h) /\
          (h = 0 \/ (exists u, In u users_7s1 /\ f1 u = h) \/
           (exists u, In u users_7s2 /\ f2 u = h))).
  cbv zeta. split; [|split].
  - intros u Hin. apply Nat.le_trans with mid.
    + apply (fold_max_upper f1 users_7s1 0 u Hin).
    + apply (fold_max_ge f2 users_7s2 mid).
  - intros u Hin. apply (fold_max_upper f2 users_7s2 mid u Hin).
  - destruct (fold_max_attained f2 users_7s2 mid) as [E|(u & Hin & E)].
    + rewrite E. destruct (fold_max_attained f1 users_7s1 0) as [E1|(u & Hin & E1)].
      * left. exact E1.
      * right. left. exists u. auto.
    + right. right. exists u. auto.
Qed.

(** C4. For every email of the grouped map, the rank the loop resolves is
    the maximum rank of a single profile among the email's 7S1 and 7S2
    profiles of the window: no such profile ranks higher, one of them has
    that rank unless it is 0, it is 0 when all of them rank 0 or there are
    none, and the profiles of group Other have no part in it. *)
Theorem C4_highest_rank_is_maximum :
  forall accurate : list user,
  exists d,
    group_users accurate = Some d /\
    forall e users, In (e, users) d ->
      let h := highest_rank users in
      (forall u, In u (profiles_of accurate e G7S1) ->
                 get_subscription_rank u false <= h) /\
      (forall u, In u (profiles_of accurate e G7S2) ->
                 get_subscription_rank u true <= h) /\
      (h = 0 \/
       (exists u, In u (profiles_of accurate e G7S1) /\
                  get_subscription_rank u false = h) \/
       (exists u, In u (profiles_of accurate e G7S2) /\
                  get_subscription_rank u true = h)) /\
      ((forall u, In u (profiles_of accurate e G7S1) ->
                  get_subscription_rank u false = 0) ->
       (forall u, In u (profiles_of accurate e G7S2) ->
                  get_subscription_rank u true = 0) -> h = 0) /\
      (forall others,
         highest_rank {| g_7S1 := g_7S1 users; g_7S2 := g_7S2 users;
                         g_Other := others |} = h) /\
      h = get_highest_subscription (profiles_of accurate e G7S1)
                                   (profiles_of accurate e G7S2).
Proof.
  intros accurate.
  destruct (group_users_grouped accurate) as (d & Hd & Hg).
  exists d. split; [exact Hd|]. intros e users Hin h.
  pose proof (grouped_item d accurate (e, users) Hg Hin G7S1) as M1.
  pose proof (grouped_item d accurate (e, users) Hg Hin G7S2) as M2.
  cbn [fst snd members] in M1, M2.
  assert (Hh : h = get_highest_subscription (profiles_of accurate e G7S1)
                                            (profiles_of accurate e G7S2))
    by (unfold h, highest_rank; now rewrite M1, M2).
  destruct (get_highest_subscription_max (profiles_of accurate e G7S1)
                                         (profiles_of accurate e G7S2))
    as (U1 & U2 & A).
  rewrite <- Hh in U1, U2, A.
  repeat split; auto.
  intros Z1 Z2. destruct A as [A|[(u & Hu & A)|(u & Hu & A)]]; [exact A | |].
  - rewrite <- A. now apply Z1.
  - rewrite <- A. now apply Z2.
Qed.

(** ** The window filter *)

(** C10. With a lower bound T >= 0, a profile without last_seen_at is read
    as last seen at 0 and is not in the window; the filter keeps exactly the
    profiles whose last-seen value, 0 when absent, is greater than T. *)
Theorem C10_window_filter :
  forall (T : Z) (all_users_from_api : list user),
    (0 <= T)%Z ->
    (forall u, u_last_seen_at u = None ->
               last_seen_at u = 0%Z /\
               ~ In u (accurate_users T all_users_from_api)) /\
    (forall u, In u (accurate_users T all_users_from_api) <->
               In u all_users_from_api /\ (T < last_seen_at u)%Z) /\
    accurate_users T all_users_from_api =
      filter (fun u => (T <? match u_last_seen_at u with
                             | Some t => t
                             | None => 0
                             end)%Z) all_users_from_api.
Proof.
  intros T all_users_from_api HT.
  assert (Hin : forall u, In u (accurate_users T all_users_from_api) <->
                          In u all_users_from_api /\ (T < last_seen_at u)%Z).
  { intros u. unfold accurate_users. now rewrite filter_In, Z.ltb_lt. }
  split; [|split; [exact Hin | reflexivity]].
  intros u Hnone.
  assert (H0 : last_seen_at u = 0%Z) by (unfold last_seen_at; now rewrite Hnone).
  split; [exact H0|]. rewrite Hin, H0. lia.
Qed.

Lemma C10_witness :
  (0 <= 100)%Z /\
  (forall u, u_last_seen_at u = None ->
             last_seen_at u = 0%Z /\ ~ In u (accurate_users 100 sample_window)) /\
  (forall u, In u (accurate_users 100 sample_window) <->
             In u sample_window /\ (100 < last_seen_at u)%Z) /\
  accurate_users 100 sample_window =
    filter (fun u => (100 <? match u_last_seen_at u with
                             | Some t => t
                             | None => 0
                             end)%Z) sample_window.
Proof.
  split; [lia|]. apply (C10_window_filter 100 sample_window). lia.
Defined.

(** ** Fee waivers *)









(** ** No error *)


(** ** The breakdown tables *)

Lemma bump_cell_count fw s t t' fw' name :
  bump fw s t = Some t' ->
  cell_count fw' name t' =
  cell_count fw' name t + (if String.eqb s name && Bool.eqb fw fw' then 1 else 0).
Proof.
  unfold bump. destruct (dict_lookup s t) as [c|] eqn:E; [|discriminate].
  simpl. intros H. injection H as <-. unfold cell_count.
  destruct (String.eqb_spec s name) as [<-|Hne].
  - rewrite dict_lookup_set_eq, E. destruct fw, fw'; simpl; lia.
  - rewrite dict_lookup_set_neq by exact Hne. simpl. lia.
Qed.

Lemma categorize_email_cells st it st' fw name :
  categorize_email st it = Some st' ->
  let hit (goes : string * email_group -> bool) :=
    if goes it
       && String.eqb (rank_to_subscription (highest_rank (snd it))) name
       && Bool.eqb (group_fee_waiver (snd it)) fw
    then 1 else 0 in
  cell_count fw name (c_only_7s2 (subscription_counts st')) =
    cell_count fw name (c_only_7s2 (subscription_counts st)) + hit goes_only_7s2 /\
  cell_count fw name (c_only_7s1 (subscription_counts st')) =
    cell_count fw name (c_only_7s1 (subscription_counts st)) + hit goes_only_7s1 /\
  cell_count fw name (c_both (subscription_counts st')) =
    cell_count fw name (c_both (subscription_counts st)) + hit goes_both.
Proof.
  destruct it as [email users].
  unfold categorize_email, goes_only_7s2, goes_only_7s1, goes_both.
  cbn [fst snd].
  destruct (has_active_7s1 users), (has_active_7s2 users); cbn [andb negb];
    try (match goal with
         | |- context [bump ?f ?s ?t] => destruct (bump f s t) as [t'|] eqn:B
         end; [|discriminate]);
    simpl; intros H; injection H as <-; cat_fields;
    try rewrite (bump_cell_count _ _ _ _ fw name B);
    repeat split; lia.
Qed.

Lemma for_each_categorize_cells items :
  forall st st' fw name,
    for_each categorize_email items st = Some st' ->
    cell_count fw name (c_only_7s2 (subscription_counts st')) =
      cell_count fw name (c_only_7s2 (subscription_counts st)) +
      length (counted_under goes_only_7s2 name fw items) /\
    cell_count fw name (c_only_7s1 (subscription_counts st')) =
      cell_count fw name (c_only_7s1 (subscription_counts st)) +
      length (counted_under goes_only_7s1 name fw items) /\
    cell_count fw name (c_both (subscription_counts st')) =
      cell_count fw name (c_both (subscription_counts st)) +
      length (counted_under goes_both name fw items).
Proof.
  induction items as [|it items IH]; intros st st' fw name; simpl.
  - intros H. injection H as <-. repeat split; lia.
  - destruct (categorize_email st it) as [st1|] eqn:E; [|discriminate]. simpl.
    intros H. destruct (IH st1 st' fw name H) as (A2 & A1 & Ab).
    destruct (categorize_email_cells st it st1 fw name E) as (B2 & B1 & Bb).
    rewrite A2, A1, Ab, B2, B1, Bb. unfold counted_under. simpl.
    repeat split;
      match goal with
      | |- context [if ?c then 1 else 0] => destruct c; simpl; lia
      end.
Qed.

Lemma cell_count_empty fw name : cell_count fw name empty_breakdown = 0.
Proof.
  unfold cell_count.
  destruct (dict_lookup name empty_breakdown) as [c|] eqn:E; [|reflexivity].
  apply dict_lookup_In in E; [|repeat constructor; simpl; intuition discriminate].
  simpl in E.
  repeat (destruct E as [E|E]; [injection E as _ <-; now destruct fw|]).
  destruct E.
Qed.

(** Each cell of a bucket's breakdown counts the emails of that bucket whose
    highest rank has the cell's subscription name and whose fee-waiver flag
    is the cell's side. *)
Theorem breakdown_counts :
  forall (accurate : list user),
  exists d st,
    group_users accurate = Some d /\ categorize d = Some st /\
    forall fw name,
      cell_count fw name (c_only_7s2 (subscription_counts st)) =
        length (counted_under goes_only_7s2 name fw d) /\
      cell_count fw name (c_only_7s1 (subscription_counts st)) =
        length (counted_under goes_only_7s1 name fw d) /\
      cell_count fw name (c_both (subscription_counts st)) =
        length (counted_under goes_both name fw d).
Proof.
  intros accurate.
  destruct (window_categorized accurate) as (d & st & Hd & _ & Hst & _).
  exists d, st. split; [exact Hd|]. split; [exact Hst|].
  intros fw name.
  destruct (for_each_categorize_cells d cat_init st fw name Hst) as (A2 & A1 & Ab).
  rewrite A2, A1, Ab.
  cbn [cat_init subscription_counts c_only_7s2 c_only_7s1 c_both].
  now rewrite cell_count_empty.
Qed.

(** ** The scenarios of the specification, run *)

(** One email with one 7S1 profile, rank Live, no waiver tag, purchase text
    "Live Plan": it is in only_7s1 and counted under Live, regular. *)
Example scenario_only_7s1_live :
  option_map (fun r => (count (r_only_7s1 r), sample (r_only_7s1 r),
                        cell_count false "Live" (subscription_breakdown (r_only_7s1 r)),
                        cell_count true "Live" (subscription_breakdown (r_only_7s1 r))))
    (run unit reverse_shuffle tt 100
       [ profile (Some "p1") (Some "ann@example.com") (Some "1001") (Some 500%Z)
           (Some [("lsat_course", VStr "Live");
                  ("lsat_purchase_names", VStr "Live Plan")]) None ])
  = Some (1, ["ann@example.com"], 1, 0).
Proof. vm_compute. reflexivity. Qed.

(** One email on both systems, Coaching on 7S1 and core on 7S2: it is in
    both and counted under Coach. *)
Example scenario_both_coach :
  option_map (fun r => (count (r_both r), total_profiles_in_this_category r,
                        cell_count false "Coach" (subscription_breakdown (r_both r)),
                        cell_count false "Core" (subscription_breakdown (r_both r))))
    (run unit reverse_shuffle tt 100
       [ profile (Some "p1") (Some "bob@example.com") (Some "2002") (Some 500%Z)
           (Some [("lsat_course", VStr "Coaching")]) None;
         profile (Some "p2") (Some "bob@example.com") (Some "usr_77") (Some 500%Z)
           (Some [("sub", VStr "core")]) None ])
  = Some (1, 2, 1, 0).
Proof. vm_compute. reflexivity. Qed.

(** A profile tagged 11173348 is a fee waiver whatever its purchase text. *)
Example scenario_waiver_tag :
  is_fee_waiver
    (profile (Some "p1") (Some "ann@example.com") (Some "1001") (Some 500%Z)
       (Some [("lsat_purchase_names", VStr "Live Plan")])
       (Some {| tags_data := Some [[("id", VStr "11173348")]] |})) = true.
Proof. reflexivity. Qed.

(** A profile with an email and no external id counts as a unique email and
    is in none of the three buckets. *)
Example scenario_no_external_id :
  option_map (fun r => (total_unique_emails r, count (r_only_7s1 r),
                        count (r_only_7s2 r), count (r_both r)))
    (run unit reverse_shuffle tt 100
       [ profile (Some "p1") (Some "cy@example.com") None (Some 500%Z) None None ])
  = Some (1, 0, 0, 0).
Proof. vm_compute. reflexivity. Qed.

(** A sample never shows more than ten of a larger bucket. *)
Example scenario_sample_of_twelve :
  option_map (fun r => (count (r_only_7s2 r), length (sample (r_only_7s2 r))))
    (run unit reverse_shuffle tt 100
       (map (fun e => profile None (Some e) (Some "usr_1") (Some 500%Z) None None)
            ["a"; "b"; "c"; "d"; "e"; "f"; "g"; "h"; "i"; "j"; "k"; "l"]))
  = Some (12, 10).
Proof. vm_compute. reflexivity. Qed.

(** ** Further properties of the grouping loop *)

Lemma filed_set_new k v (d : dict email_group) :
  ~ In k (dict_keys d) ->
  filed_profiles (dict_set k v d) = filed_profiles d + group_size v.
Proof.
  unfold filed_profiles.
  induction d as [|[k' v'] d IH]; simpl; intros Hnin; [lia|].
  destruct (String.eqb_spec k k') as [->|Hne].
  - exfalso. auto.
  - simpl. rewrite IH by tauto. lia.
Qed.

Lemma filed_set_old k v (d : dict email_group) g :
  dict_lookup k d = Some g ->
  filed_profiles (dict_set k v d) + group_size g =
  filed_profiles d + group_size v.
Proof.
  unfold filed_profiles.
  induction d as [|[k' v'] d IH]; simpl; [discriminate|].
  destruct (String.eqb_spec k k') as [->|Hne]; simpl.
  - intros H. injection H as ->. lia.
  - intros H. specialize (IH H). lia.
Qed.

Lemma group_size_append gr u g :
  group_size (group_append gr u g) = group_size g + 1.
Proof. destruct gr; unfold group_size; simpl; rewrite length_app; simpl; lia. Qed.

Lemma group_user_filed d u d' :
  group_user d u = Some d' ->
  filed_profiles d' =
  filed_profiles d + (if truthy (u_email u) then 1 else 0).
Proof.
  unfold group_user. destruct (truthy (u_email u)) eqn:Ht; simpl.
  2:{ intros H. injection H as <-. lia. }
  destruct (u_email u) as [email|]; [|discriminate].
  set (d1 := if negb (dict_mem email d) then dict_set email empty_group d else d).
  assert (H1 : filed_profiles d1 = filed_profiles d).
  { subst d1. destruct (dict_mem email d) eqn:Hm; simpl; [reflexivity|].
    apply dict_mem_false in Hm. rewrite (filed_set_new _ _ _ Hm).
    unfold group_size. simpl. lia. }
  destruct (dict_lookup email d1) as [users|] eqn:Hl; [|discriminate].
  simpl. intros H. injection H as <-.
  pose proof (filed_set_old email (group_append (group_of u) u users) d1 users Hl).
  rewrite group_size_append in H. lia.
Qed.

Lemma for_each_group_user_filed l :
  forall d d', for_each group_user l d = Some d' ->
  filed_profiles d' =
  filed_profiles d + length (filter (fun u => truthy (u_email u)) l).
Proof.
  induction l as [|u l IH]; intros d d'; simpl.
  - intros H. injection H as <-. lia.
  - destruct (group_user d u) as [d1|] eqn:E; [|discriminate]. simpl.
    intros H. rewrite (IH d1 d' H), (group_user_filed d u d1 E).
    destruct (truthy (u_email u)); simpl; lia.
Qed.

Lemma length_filter_negb {A : Type} (f : A -> bool) (l : list A) :
  length l = length (filter f l) + length (filter (fun x => negb (f x)) l).
Proof.
  induction l as [|x l IH]; simpl; [reflexivity|].
  destruct (f x); simpl; lia.
Qed.

Lemma group_users_filed accurate d :
  group_users accurate = Some d ->
  filed_profiles d = length (filter (fun u => truthy (u_email u)) accurate).
Proof.
  intros Hd. pose proof (for_each_group_user_filed accurate [] d Hd) as Hf.
  change (filed_profiles []) with 0 in Hf. exact Hf.
Qed.

Lemma grouped_group_size d accurate e users :
  grouped d accurate -> In (e, users) d ->
  group_size users = n_7s1 accurate e + n_7s2 accurate e + n_other accurate e /\
  1 <= group_size users.
Proof.
  intros Hg Hin.
  pose proof (grouped_item d accurate (e, users) Hg Hin G7S1) as M1.
  pose proof (grouped_item d accurate (e, users) Hg Hin G7S2) as M2.
  pose proof (grouped_item d accurate (e, users) Hg Hin GOther) as M3.
  cbn [fst snd members] in M1, M2, M3.
  assert (Hs : group_size users =
               n_7s1 accurate e + n_7s2 accurate e + n_other accurate e)
    by (unfold group_size, n_7s1, n_7s2, n_other; now rewrite M1, M2, M3).
  split; [exact Hs|]. rewrite Hs.
  apply (grouped_key_counts d accurate e Hg).
  change e with (fst (e, users)). now apply in_map.
Qed.

(** X4. The grouping loop files every profile of the window that has an
    email exactly once: the lists of the grouped map hold together as many
    profiles as the window has with an email, the rest of the window being
    the skipped profiles, and no email is kept without a profile. *)
Theorem grouping_files_each_profile_once :
  forall accurate : list user,
  exists d,
    group_users accurate = Some d /\
    filed_profiles d =
      length (filter (fun u => truthy (u_email u)) accurate) /\
    length accurate =
      filed_profiles d +
      length (filter (fun u => negb (truthy (u_email u))) accurate) /\
    forall e users, In (e, users) d ->
      group_size users =
        n_7s1 accurate e + n_7s2 accurate e + n_other accurate e /\
      1 <= group_size users.
Proof.
  intros accurate.
  destruct (group_users_grouped accurate) as (d & Hd & Hg).
  exists d. split; [exact Hd|].
  pose proof (group_users_filed accurate d Hd) as Hf.
  split; [exact Hf|]. split.
  - rewrite Hf. apply length_filter_negb.
  - intros e users Hin. now apply (grouped_group_size d accurate).
Qed.

Lemma accurate_users_twice (Q T : Z) (l : list user) :
  (Q <= T)%Z -> accurate_users T (accurate_users Q l) = accurate_users T l.
Proof.
  intros Hle. unfold accurate_users.
  induction l as [|u l IH]; simpl; [reflexivity|].
  destruct (Q <? last_seen_at u)%Z eqn:Eq; simpl.
  - now rewrite IH.
  - rewrite IH. destruct (T <? last_seen_at u)%Z eqn:Et; [|reflexivity].
    apply Z.ltb_lt in Et. apply Z.ltb_ge in Eq. lia.
Qed.

(** Filtering an over-fetched list again is harmless: when the query's
    lower bound is not later than the window's, the window filter gives the
    same profiles on the over-fetched list as on the list it was fetched
    from, and the run gives the same result. *)
Theorem window_filter_absorbs_backdated_fetch :
  forall (query_start T : Z) (all_users : list user),
    (query_start <= T)%Z ->
    accurate_users T (accurate_users query_start all_users) =
      accurate_users T all_users /\
    forall (rng : Type) (shuffle : rng -> list string -> list string * rng)
           (seed : rng),
      run rng shuffle seed T (accurate_users query_start all_users) =
      run rng shuffle seed T all_users.
Proof.
  intros query_start T all_users Hle.
  pose proof (accurate_users_twice query_start T all_users Hle) as H.
  split; [exact H|]. intros rng shuffle seed. unfold run. now rewrite H.
Qed.

Lemma window_filter_absorbs_backdated_fetch_witness :
  (0 <= 100)%Z /\
  accurate_users 100 (accurate_users 0 sample_window) =
    accurate_users 100 sample_window /\
  forall (rng : Type) (shuffle : rng -> list string -> list string * rng)
         (seed : rng),
    run rng shuffle seed 100 (accurate_users 0 sample_window) =
    run rng shuffle seed 100 sample_window.
Proof.
  split; [lia|].
  apply (window_filter_absorbs_backdated_fetch 0 100 sample_window). lia.
Defined.

(** ** The profile ids collected for tagging *)

Lemma categorize_email_ids st it st' :
  categorize_email st it = Some st' ->
  only_7s1_profile_ids st' =
  only_7s1_profile_ids st ++
  (if goes_only_7s1 it then profile_ids (g_7S1 (snd it)) else []).
Proof.
  destruct it as [email users].
  unfold categorize_email, goes_only_7s1. cbn [fst snd].
  destruct (has_active_7s1 users), (has_active_7s2 users); cbn [andb negb];
    try (match goal with
         | |- context [bump ?f ?s ?t] => destruct (bump f s t) as [t'|]
         end; [|discriminate]);
    simpl; intros H; injection H as <-; cat_fields;
    now rewrite ?app_nil_r.
Qed.

Lemma for_each_categorize_ids items :
  forall st st',
    for_each categorize_email items st = Some st' ->
    only_7s1_profile_ids st' =
    only_7s1_profile_ids st ++
    flat_map (fun it => profile_ids (g_7S1 (snd it)))
             (filter goes_only_7s1 items).
Proof.
  induction items as [|it items IH]; intros st st'; simpl.
  - intros H. injection H as <-. now rewrite app_nil_r.
  - destruct (categorize_email st it) as [st1|] eqn:E; [|discriminate]. simpl.
    intros H. rewrite (IH st1 st' H), (categorize_email_ids st it st1 E).
    destruct (goes_only_7s1 it); simpl; now rewrite ?app_nil_r, <- ?app_assoc.
Qed.

Lemma profile_ids_In i l :
  In i (profile_ids l) <-> exists u, In u l /\ u_id u = Some i /\ i <> "".
Proof.
  unfold profile_ids. rewrite in_flat_map. split.
  - intros (u & Hin & Hi). exists u. split; [exact Hin|].
    destruct (u_id u) as [j|]; [|destruct Hi]. simpl in Hi.
    destruct (String.eqb_spec j ""); simpl in Hi; [destruct Hi|].
    destruct Hi as [<-|[]]. auto.
  - intros (u & Hin & Hid & Hne). exists u. split; [exact Hin|].
    rewrite Hid. simpl. destruct (String.eqb_spec i ""); [contradiction|].
    now left.
Qed.

Lemma collected_ids d st accurate :
  grouped d accurate -> categorize d = Some st ->
  only_7s1_profile_ids st =
    flat_map (fun e => profile_ids (profiles_of accurate e G7S1))
             (only_7s1 st) /\
  forall i,
    In i (only_7s1_profile_ids st) <->
    exists u e,
      In u accurate /\ has_email e u = true /\ group_of u = G7S1 /\
      n_7s2 accurate e = 0 /\ u_id u = Some i /\ i <> "".
Proof.
  intros Hg Hst.
  destruct (categorize_grouped d accurate Hg) as (st0 & Hst0 & _ & H1 & _).
  rewrite Hst in Hst0. injection Hst0 as <-.
  destruct (categorize_spec d) as (st0 & Hst0 & _ & H1' & _).
  rewrite Hst in Hst0. injection Hst0 as <-.
  assert (Hids : only_7s1_profile_ids st =
                 flat_map (fun e => profile_ids (profiles_of accurate e G7S1))
                          (only_7s1 st)).
  { rewrite (for_each_categorize_ids d cat_init st Hst). simpl.
    rewrite H1'. rewrite !flat_map_concat_map, map_map. f_equal.
    apply map_ext_in. intros it Hin. apply filter_In in Hin as [Hin _].
    pose proof (grouped_item d accurate it Hg Hin G7S1) as M.
    cbn [members] in M. now rewrite M. }
  split; [exact Hids|]. intros i. rewrite Hids, in_flat_map. split.
  - intros (e & He & Hi). apply profile_ids_In in Hi as (u & Hu & Hid & Hne).
    apply profiles_of_In in Hu as (Hin & Hem & Hgr).
    rewrite H1 in He. apply filter_In in He as [_ He].
    apply email_only_7s1_iff in He as [_ H0].
    exists u, e. auto 10.
  - intros (u & e & Hin & Hem & Hgr & H0 & Hid & Hne).
    assert (Hp : 1 <= n_7s1 accurate e) by (apply n_pos_profile; eauto).
    exists e. split.
    + rewrite H1. apply (filter_keys_In d accurate _ e Hg).
      * rewrite email_only_7s1_iff. lia.
      * apply email_only_7s1_iff. auto.
    + apply profile_ids_In. exists u. split; [|auto].
      apply profiles_of_In. auto.
Qed.

(** X3. The ids handed to the tagging step are, email by email in the
    order of only_7s1, the non-empty ids of the email's 7S1 profiles: an id
    is collected iff it is the id of a 7S1 profile of the window whose email
    has no 7S2 profile.  No profile of an email that is also on 7S2 is ever
    collected. *)
Theorem tagging_ids_are_the_only_7s1_profiles :
  forall accurate : list user,
  exists d st,
    group_users accurate = Some d /\ categorize d = Some st /\
    only_7s1_profile_ids st =
      flat_map (fun e => profile_ids (profiles_of accurate e G7S1))
               (only_7s1 st) /\
    forall i,
      In i (only_7s1_profile_ids st) <->
      exists u e,
        In u accurate /\ has_email e u = true /\ group_of u = G7S1 /\
        n_7s2 accurate e = 0 /\ u_id u = Some i /\ i <> "".
Proof.
  intros accurate.
  destruct (window_categorized accurate) as (d & st & Hd & Hg & Hst & _).
  exists d, st. split; [exact Hd|]. split; [exact Hst|].
  apply (collected_ids d st accurate Hg Hst).
Qed.

(** ** Bounds between the reported figures *)

Lemma length_filter_le {A : Type} (f : A -> bool) (l : list A) :
  length (filter f l) <= length l.
Proof. induction l as [|x l IH]; simpl; [lia|]. destruct (f x); simpl; lia. Qed.

Lemma length_filter_mono {A : Type} (f g : A -> bool) (l : list A) :
  (forall x, f x = true -> g x = true) ->
  length (filter f l) <= length (filter g l).
Proof.
  intros H. induction l as [|x l IH]; simpl; [lia|].
  destruct (f x) eqn:Ef.
  - rewrite (H x Ef). simpl. lia.
  - destruct (g x); simpl; lia.
Qed.

Lemma list_sum_one {A : Type} (f : A -> nat) l :
  (forall x, In x l -> 1 <= f x) -> length l <= list_sum (map f l).
Proof.
  induction l as [|x l IH]; intros H; simpl; [lia|].
  assert (1 <= f x) by (apply H; now left).
  assert (length l <= list_sum (map f l)) by (apply IH; intros; apply H; now right).
  lia.
Qed.

(** X5. The figures of a result are ordered: the emails on both systems
    are among the emails with multiple profiles, these among the unique
    emails, and there are at most as many unique emails as profiles in the
    window. *)
Theorem result_figures_are_ordered :
  forall (rng : Type) (shuffle : rng -> list string -> list string * rng),
    (forall g l, Permutation l (fst (shuffle g l))) ->
    forall (seed : rng) (T : Z) (all_users_from_api : list user),
    exists r,
      run rng shuffle seed T all_users_from_api = Some r /\
      count (r_both r) <= r_emails_with_multiple_profiles r /\
      r_emails_with_multiple_profiles r <= total_unique_emails r /\
      total_unique_emails r <= total_profiles_in_window r /\
      total_profiles_in_window r <= length all_users_from_api.
Proof.
  intros rng shuffle Hperm seed T all_users_from_api.
  set (accurate := accurate_users T all_users_from_api).
  destruct (window_categorized accurate)
    as (d & st & Hd & Hg & Hst & _ & _ & Hb & Hm & _).
  destruct (run_result rng shuffle seed T all_users_from_api)
    as (d' & st' & Hd' & Hst' & Hrun).
  fold accurate in Hd', Hrun. rewrite Hd in Hd'. injection Hd' as <-.
  rewrite Hst in Hst'. injection Hst' as <-.
  pose proof (group_users_filed accurate d Hd) as Hf.
  pose proof (length_filter_negb (fun u => truthy (u_email u)) accurate) as Hlen.
  exists (build_result rng shuffle seed accurate d st).
  split; [exact Hrun|].
  destruct (build_result_counters rng shuffle seed accurate d st)
    as (Ru & Rw & Rm & _).
  destruct (build_result_samples rng shuffle Hperm seed accurate d st)
    as (_ & _ & (Rb & _)).
  rewrite Ru, Rw, Rm, Rb, Hb, Hm.
  split; [|split; [|split]].
  - apply length_filter_mono. intros e He.
    apply email_both_iff in He. unfold email_multiple.
    apply Nat.ltb_lt. lia.
  - apply Nat.le_trans with (length (dict_keys d)); [apply length_filter_le|].
    unfold dict_keys. now rewrite length_map.
  - assert (length d <= filed_profiles d).
    { unfold filed_profiles. apply list_sum_one.
      intros [e users] Hin.
      now apply (grouped_group_size d accurate e users Hg). }
    rewrite Hlen, <- Hf.
    apply Nat.le_trans with (filed_profiles d); [exact H | apply Nat.le_add_r].
  - subst accurate. unfold accurate_users. apply length_filter_le.
Qed.

Lemma result_figures_are_ordered_witness :
  (forall g l, Permutation l (fst (reverse_shuffle g l))) /\
  exists r,
    run unit reverse_shuffle tt 100 sample_window = Some r /\
    count (r_both r) <= r_emails_with_multiple_profiles r /\
    r_emails_with_multiple_profiles r <= total_unique_emails r /\
    total_unique_emails r <= total_profiles_in_window r /\
    total_profiles_in_window r <= length sample_window.
Proof.
  split; [exact reverse_shuffle_perm|].
  apply (result_figures_are_ordered unit reverse_shuffle reverse_shuffle_perm).
Defined.

(** ** The breakdown tables over the distinct emails *)

Lemma goes_as_emails d accurate it :
  grouped d accurate -> In it d ->
  goes_only_7s2 it = email_only_7s2 accurate (fst it) /\
  goes_only_7s1 it = email_only_7s1 accurate (fst it) /\
  goes_both it = email_both accurate (fst it) /\
  rank_to_subscription (highest_rank (snd it)) =
    email_subscription accurate (fst it) /\
  group_fee_waiver (snd it) = email_fee_waiver accurate (fst it).
Proof.
  intros Hg Hin.
  pose proof (grouped_item d accurate it Hg Hin G7S1) as M1.
  pose proof (grouped_item d accurate it Hg Hin G7S2) as M2.
  cbn [members] in M1, M2.
  unfold goes_only_7s2, goes_only_7s1, goes_both, highest_rank,
    group_fee_waiver, has_active_7s1, has_active_7s2,
    email_only_7s2, email_only_7s1, email_both, email_subscription,
    email_fee_waiver, n_7s1, n_7s2.
  rewrite M1, M2. repeat split; reflexivity.
Qed.

Lemma counted_under_emails d accurate goes Goes name fw :
  grouped d accurate ->
  (forall it, In it d -> goes it = Goes (fst it)) ->
  length (counted_under goes name fw d) =
  length (counted_emails Goes accurate name fw).
Proof.
  intros Hg Hgoes. unfold counted_under, counted_emails.
  rewrite (length_filter_fst _
             (fun e => Goes e
                       && String.eqb (email_subscription accurate e) name
                       && Bool.eqb (email_fee_waiver accurate e) fw) d).
  - apply Permutation_length, Permutation_filter'.
    apply (grouped_keys_distinct d accurate Hg).
  - intros it Hin.
    destruct (goes_as_emails d accurate it Hg Hin) as (_ & _ & _ & Hs & Hw).
    now rewrite (Hgoes it Hin), Hs, Hw.
Qed.

Lemma cells_over_emails d st accurate :
  grouped d accurate -> categorize d = Some st ->
  forall fw name,
    cell_count fw name (c_only_7s2 (subscription_counts st)) =
      length (counted_emails (email_only_7s2 accurate) accurate name fw) /\
    cell_count fw name (c_only_7s1 (subscription_counts st)) =
      length (counted_emails (email_only_7s1 accurate) accurate name fw) /\
    cell_count fw name (c_both (subscription_counts st)) =
      length (counted_emails (email_both accurate) accurate name fw).
Proof.
  intros Hg Hst fw name.
  destruct (for_each_categorize_cells d cat_init st fw name Hst) as (A2 & A1 & Ab).
  rewrite A2, A1, Ab.
  cbn [cat_init subscription_counts c_only_7s2 c_only_7s1 c_both].
  rewrite cell_count_empty. cbn [plus].
  repeat split; apply counted_under_emails; try exact Hg;
    intros it Hin; apply (goes_as_emails d accurate it Hg Hin).
Qed.

(** X1. Each cell of a bucket's breakdown is the number of distinct emails
    of that bucket whose highest rank, over the email's 7S1 and 7S2
    profiles, has the cell's subscription name and whose fee-waiver flag is
    the cell's side. *)
Theorem breakdown_cells_count_emails :
  forall accurate : list user,
  exists d st,
    group_users accurate = Some d /\ categorize d = Some st /\
    forall fw name,
      cell_count fw name (c_only_7s2 (subscription_counts st)) =
        length (counted_emails (email_only_7s2 accurate) accurate name fw) /\
      cell_count fw name (c_only_7s1 (subscription_counts st)) =
        length (counted_emails (email_only_7s1 accurate) accurate name fw) /\
      cell_count fw name (c_both (subscription_counts st)) =
        length (counted_emails (email_both accurate) accurate name fw).
Proof.
  intros accurate.
  destruct (window_categorized accurate) as (d & st & Hd & Hg & Hst & _).
  exists d, st. split; [exact Hd|]. split; [exact Hst|].
  intros fw name. apply (cells_over_emails d st accurate Hg Hst).
Qed.

Lemma list_sum_map_add {A : Type} (f g : A -> nat) l :
  list_sum (map (fun x => f x + g x) l) =
  list_sum (map f l) + list_sum (map g l).
Proof. induction l as [|x l IH]; simpl; [reflexivity|]. rewrite IH. lia. Qed.

(** An email is counted under exactly one subscription name and side. *)
Lemma one_cell_per_email (g w : bool) (rank : nat) :
  list_sum
    (map (fun name =>
            (if g && String.eqb (rank_to_subscription rank) name && Bool.eqb w false
             then 1 else 0) +
            (if g && String.eqb (rank_to_subscription rank) name && Bool.eqb w true
             then 1 else 0))
         subscription_buckets) =
  if g then 1 else 0.
Proof.
  destruct g, w; do 6 (destruct rank as [|rank]; [reflexivity|]); reflexivity.
Qed.

Lemma counted_under_total goes d :
  list_sum
    (map (fun name => length (counted_under goes name false d) +
                      length (counted_under goes name true d))
         subscription_buckets) =
  length (filter goes d).
Proof.
  induction d as [|it d IH]; [reflexivity|].
  rewrite <- (Nat.add_0_r (length (filter goes (it :: d)))).
  cbn [filter].
  transitivity
    ((if goes it then 1 else 0) + length (filter goes d));
    [|destruct (goes it); simpl; lia].
  rewrite <- IH, <- (one_cell_per_email (goes it) (group_fee_waiver (snd it))
                                        (highest_rank (snd it))).
  rewrite <- list_sum_map_add. f_equal. apply map_ext. intros name.
  unfold counted_under. cbn [filter].
  destruct (goes it && String.eqb (rank_to_subscription (highest_rank (snd it))) name
            && Bool.eqb (group_fee_waiver (snd it)) false);
    destruct (goes it && String.eqb (rank_to_subscription (highest_rank (snd it))) name
              && Bool.eqb (group_fee_waiver (snd it)) true);
    simpl; lia.
Qed.

Lemma breakdown_total_cells (table : dict cell) :
  dict_keys table = subscription_buckets ->
  breakdown_total table =
  list_sum (map (fun name => cell_count false name table +
                             cell_count true name table)
                subscription_buckets).
Proof.
  unfold breakdown_total, subscription_buckets, dict_keys.
  destruct table as [|[k1 c1] [|[k2 c2] [|[k3 c3] [|[k4 c4] [|[k5 c5]
    [|[k6 c6] [|? ?]]]]]]]; try discriminate.
  simpl. intros H. injection H as -> -> -> -> -> ->.
  unfold cell_count. simpl. lia.
Qed.

Lemma build_result_breakdowns rng shuffle seed accurate d st :
  let r := build_result rng shuffle seed accurate d st in
  subscription_breakdown (r_only_7s2 r) = c_only_7s2 (subscription_counts st) /\
  subscription_breakdown (r_only_7s1 r) = c_only_7s1 (subscription_counts st) /\
  subscription_breakdown (r_both r) = c_both (subscription_counts st).
Proof.
  unfold build_result.
  destruct (shuffle seed (only_7s2 st)) as [l2 g1].
  destruct (shuffle g1 (only_7s1 st)) as [l1 g2].
  destruct (shuffle g2 (both st)) as [lb g3].
  repeat split.
Qed.

Lemma state_breakdown_totals d st :
  categorize d = Some st ->
  tables_ok (subscription_counts st) /\
  breakdown_total (c_only_7s2 (subscription_counts st)) = length (only_7s2 st) /\
  breakdown_total (c_only_7s1 (subscription_counts st)) = length (only_7s1 st) /\
  breakdown_total (c_both (subscription_counts st)) = length (both st).
Proof.
  intros Hst.
  assert (Hok0 : tables_ok (subscription_counts cat_init))
    by (repeat split; reflexivity).
  destruct (for_each_categorize_email d cat_init Hok0)
    as (st' & Hst' & (K2 & K1 & Kb) & L2 & L1 & Lb & _).
  unfold categorize in Hst. rewrite Hst in Hst'. injection Hst' as <-.
  simpl in L2, L1, Lb.
  split; [repeat split; assumption|].
  rewrite (breakdown_total_cells _ K2), (breakdown_total_cells _ K1),
    (breakdown_total_cells _ Kb), L2, L1, Lb, !length_map,
    <- !counted_under_total.
  repeat split; f_equal; apply map_ext; intros name;
    destruct (for_each_categorize_cells d cat_init st false name Hst)
      as (A2 & A1 & Ab);
    destruct (for_each_categorize_cells d cat_init st true name Hst)
      as (B2 & B1 & Bb);
    cbn [cat_init subscription_counts c_only_7s2 c_only_7s1 c_both] in *;
    rewrite cell_count_empty in *; lia.
Qed.

(** X2. In every bucket the cells of the breakdown add up to the bucket's
    count: each email of a bucket is counted in exactly one cell. *)
Theorem breakdown_adds_up_to_count :
  forall (rng : Type) (shuffle : rng -> list string -> list string * rng),
    (forall g l, Permutation l (fst (shuffle g l))) ->
    forall (seed : rng) (T : Z) (all_users_from_api : list user),
    exists r,
      run rng shuffle seed T all_users_from_api = Some r /\
      dict_keys (subscription_breakdown (r_only_7s2 r)) = subscription_buckets /\
      dict_keys (subscription_breakdown (r_only_7s1 r)) = subscription_buckets /\
      dict_keys (subscription_breakdown (r_both r)) = subscription_buckets /\
      breakdown_total (subscription_breakdown (r_only_7s2 r)) =
        count (r_only_7s2 r) /\
      breakdown_total (subscription_breakdown (r_only_7s1 r)) =
        count (r_only_7s1 r) /\
      breakdown_total (subscription_breakdown (r_both r)) = count (r_both r).
Proof.
  intros rng shuffle Hperm seed T all_users_from_api.
  destruct (run_result rng shuffle seed T all_users_from_api)
    as (d & st & Hd & Hst & Hrun).
  exists (build_result rng shuffle seed
            (accurate_users T all_users_from_api) d st).
  split; [exact Hrun|].
  destruct (build_result_samples rng shuffle Hperm seed
              (accurate_users T all_users_from_api) d st)
    as ((R2 & _) & (R1 & _) & (Rb & _)).
  destruct (build_result_breakdowns rng shuffle seed
              (accurate_users T all_users_from_api) d st) as (B2 & B1 & Bb).
  destruct (state_breakdown_totals d st Hst) as ((K2 & K1 & Kb) & T2 & T1 & Tb).
  rewrite R2, R1, Rb, B2, B1, Bb. repeat split; assumption.
Qed.

Lemma breakdown_adds_up_to_count_witness :
  (forall g l, Permutation l (fst (reverse_shuffle g l))) /\
  exists r,
    run unit reverse_shuffle tt 100 sample_window = Some r /\
    dict_keys (subscription_breakdown (r_only_7s2 r)) = subscription_buckets /\
    dict_keys (subscription_breakdown (r_only_7s1 r)) = subscription_buckets /\
    dict_keys (subscription_breakdown (r_both r)) = subscription_buckets /\
    breakdown_total (subscription_breakdown (r_only_7s2 r)) =
      count (r_only_7s2 r) /\
    breakdown_total (subscription_breakdown (r_only_7s1 r)) =
      count (r_only_7s1 r) /\
    breakdown_total (subscription_breakdown (r_both r)) = count (r_both r).
Proof.
  split; [exact reverse_shuffle_perm|].
  apply (breakdown_adds_up_to_count unit reverse_shuffle reverse_shuffle_perm).
Defined.

(** ** Rank bounds and the Unknown name *)

Lemma subscription_ranks_le s : dict_get s SUBSCRIPTION_RANKS 0 <= 5.
Proof.
  unfold SUBSCRIPTION_RANKS. simpl.
  repeat match goal with
         | |- context [String.eqb ?a ?b] => destruct (String.eqb a b); [lia|]
         end.
  lia.
Qed.

Lemma get_subscription_rank_le u is_7s2 : get_subscription_rank u is_7s2 <= 5.
Proof.
  rewrite get_subscription_rank_table.
  destruct (raw_subscription u is_7s2); try lia. apply subscription_ranks_le.
Qed.

Lemma rank_to_subscription_unknown rank :
  rank <= 5 -> (rank_to_subscription rank = "Unknown" <-> rank = 0).
Proof.
  intros H. do 6 (destruct rank as [|rank];
                  [split; [try discriminate; reflexivity | try lia; reflexivity]|]).
  lia.
Qed.

(** X6. Ranks never exceed 5, the name an email is counted under is one of
    the six subscription names, and it is Unknown exactly when none of the
    email's 7S1 and 7S2 profiles has a recognised subscription. *)
Theorem unknown_iff_no_recognised_subscription :
  (forall u is_7s2, get_subscription_rank u is_7s2 <= 5) /\
  forall accurate : list user,
  exists d,
    group_users accurate = Some d /\
    forall e users, In (e, users) d ->
      highest_rank users <= 5 /\
      In (rank_to_subscription (highest_rank users)) subscription_buckets /\
      (rank_to_subscription (highest_rank users) = "Unknown" <->
       (forall u, In u (profiles_of accurate e G7S1) ->
                  get_subscription_rank u false = 0) /\
       (forall u, In u (profiles_of accurate e G7S2) ->
                  get_subscription_rank u true = 0)).
Proof.
  split; [exact get_subscription_rank_le|]. intros accurate.
  destruct (group_users_grouped accurate) as (d & Hd & Hg).
  exists d. split; [exact Hd|]. intros e users Hin.
  pose proof (grouped_item d accurate (e, users) Hg Hin G7S1) as M1.
  pose proof (grouped_item d accurate (e, users) Hg Hin G7S2) as M2.
  cbn [fst snd members] in M1, M2.
  destruct (get_highest_subscription_max (g_7S1 users) (g_7S2 users))
    as (U1 & U2 & A).
  fold (highest_rank users) in U1, U2, A. rewrite M1 in U1, A. rewrite M2 in U2, A.
  assert (Hle : highest_rank users <= 5).
  { destruct A as [->|[(u & _ & <-)|(u & _ & <-)]];
      [lia | apply get_subscription_rank_le | apply get_subscription_rank_le]. }
  split; [exact Hle|]. split; [apply rank_to_subscription_bucket|].
  rewrite (rank_to_subscription_unknown _ Hle). split.
  - intros H0. rewrite H0 in U1, U2. split; intros u Hu.
    + specialize (U1 u Hu). lia.
    + specialize (U2 u Hu). lia.
  - intros [Z1 Z2]. destruct A as [A|[(u & Hu & A)|(u & Hu & A)]]; [exact A | |].
    + rewrite <- A. now apply Z1.
    + rewrite <- A. now apply Z2.
Qed.

(** ** The result as a function of the window *)

(** Every figure of the result, read off the window. *)
Lemma run_reports (rng : Type) (shuffle : rng -> list string -> list string * rng)
  (shuffle_perm : forall g l, Permutation l (fst (shuffle g l)))
  (seed : rng) (T : Z) (all_users_from_api : list user) :
  let accurate := accurate_users T all_users_from_api in
  exists r,
    run rng shuffle seed T all_users_from_api = Some r /\
    total_unique_emails r = length (distinct_emails accurate) /\
    total_profiles_in_window r = length accurate /\
    r_emails_with_multiple_profiles r =
      length (multiple_profile_emails accurate) /\
    count (r_only_7s2 r) =
      length (filter (email_only_7s2 accurate) (distinct_emails accurate)) /\
    count (r_only_7s1 r) =
      length (filter (email_only_7s1 accurate) (distinct_emails accurate)) /\
    count (r_both r) = length (both_emails accurate) /\
    total_profiles_in_this_category r =
      list_sum (map (fun e => n_7s1 accurate e + n_7s2 accurate e)
                    (both_emails accurate)) /\
    forall fw name,
      cell_count fw name (subscription_breakdown (r_only_7s2 r)) =
        length (counted_emails (email_only_7s2 accurate) accurate name fw) /\
      cell_count fw name (subscription_breakdown (r_only_7s1 r)) =
        length (counted_emails (email_only_7s1 accurate) accurate name fw) /\
      cell_count fw name (subscription_breakdown (r_both r)) =
        length (counted_emails (email_both accurate) accurate name fw).
Proof.
  intros accurate.
  destruct (window_categorized accurate)
    as (d & st & Hd & Hg & Hst & H2 & H1 & Hb & _).
  destruct (run_figures rng shuffle seed T all_users_from_api)
    as (d' & st' & r & Hd' & Hst' & Hrun & Hr & _ & _ & Hm & Hp).
  fold accurate in Hd', Hr, Hm, Hp. rewrite Hd in Hd'. injection Hd' as <-.
  rewrite Hst in Hst'. injection Hst' as <-.
  pose proof (cells_over_emails d st accurate Hg Hst) as Hc.
  exists r. split; [exact Hrun|]. subst r.
  destruct (build_result_counters rng shuffle seed accurate d st)
    as (Ru & Rw & _ & _).
  destruct (build_result_samples rng shuffle shuffle_perm seed accurate d st)
    as ((R2 & _) & (R1 & _) & (Rb & _)).
  destruct (build_result_breakdowns rng shuffle seed accurate d st)
    as (B2 & B1 & Bb).
  pose proof (grouped_keys_distinct d accurate Hg) as Hperm.
  rewrite Ru, Rw, R2, R1, Rb, B2, B1, Bb, H2, H1, Hb.
  split.
  { rewrite <- (Permutation_length Hperm). unfold dict_keys. now rewrite length_map. }
  split; [reflexivity|]. split; [exact Hm|].
  split; [now apply Permutation_length, Permutation_filter'|].
  split; [now apply Permutation_length, Permutation_filter'|].
  split; [now apply Permutation_length, Permutation_filter'|].
  split; [exact Hp | exact Hc].
Qed.

(** ** Independence of the order of the fetched profiles *)

Section Reordered.

Variables a a' : list user.
Hypothesis reordered : Permutation a a'.

Lemma profiles_of_reordered e gr :
  Permutation (profiles_of a e gr) (profiles_of a' e gr).
Proof. now apply Permutation_filter'. Qed.

Lemma n_reordered e :
  n_7s1 a e = n_7s1 a' e /\ n_7s2 a e = n_7s2 a' e /\
  n_other a e = n_other a' e.
Proof.
  unfold n_7s1, n_7s2, n_other.
  repeat split; apply Permutation_length, profiles_of_reordered.
Qed.

Lemma distinct_emails_reordered :
  Permutation (distinct_emails a) (distinct_emails a').
Proof.
  apply NoDup_Permutation; try apply NoDup_nodup.
  intros e. rewrite !distinct_emails_In.
  split; intros (u & Hin & He); exists u; split; auto.
  - now apply (Permutation_in u reordered).
  - now apply (Permutation_in u (Permutation_sym reordered)).
Qed.

Lemma email_tests_reordered e :
  email_only_7s2 a e = email_only_7s2 a' e /\
  email_only_7s1 a e = email_only_7s1 a' e /\
  email_both a e = email_both a' e /\
  email_multiple a e = email_multiple a' e.
Proof.
  unfold email_only_7s2, email_only_7s1, email_both, email_multiple.
  destruct (n_reordered e) as (-> & -> & _). repeat split.
Qed.

End Reordered.

Lemma fold_max_reordered (f : user -> nat) l l' :
  Permutation l l' ->
  forall acc,
    fold_left (fun m u => Nat.max m (f u)) l acc =
    fold_left (fun m u => Nat.max m (f u)) l' acc.
Proof.
  induction 1 as [|x l l' _ IH|x y l|l l' l'' _ IH1 _ IH2]; intros acc; simpl.
  - reflexivity.
  - apply IH.
  - f_equal. lia.
  - now rewrite IH1.
Qed.

Lemma get_highest_subscription_reordered l1 l1' l2 l2' :
  Permutation l1 l1' -> Permutation l2 l2' ->
  get_highest_subscription l1 l2 = get_highest_subscription l1' l2'.
Proof.
  intros P1 P2. unfold get_highest_subscription.
  rewrite (fold_max_reordered (fun u => get_subscription_rank u false) l1 l1' P1).
  apply (fold_max_reordered (fun u => get_subscription_rank u true) l2 l2' P2).
Qed.

Lemma existsb_reordered {A : Type} (f : A -> bool) l l' :
  Permutation l l' -> existsb f l = existsb f l'.
Proof.
  intros P. apply eq_true_iff_eq. rewrite !existsb_exists.
  split; intros (x & Hin & Hx); exists x; split; auto.
  - now apply (Permutation_in x P).
  - now apply (Permutation_in x (Permutation_sym P)).
Qed.

Lemma length_filter_reordered {A : Type} (P P' : A -> bool) l l' :
  Permutation l l' -> (forall x, P x = P' x) ->
  length (filter P l) = length (filter P' l').
Proof.
  intros Hp He. rewrite (filter_ext P P' He).
  now apply Permutation_length, Permutation_filter'.
Qed.

Lemma counted_emails_reordered a a' goes goes' name fw :
  Permutation a a' -> (forall e, goes e = goes' e) ->
  length (counted_emails goes a name fw) =
  length (counted_emails goes' a' name fw).
Proof.
  intros Hp Hg. unfold counted_emails.
  apply length_filter_reordered; [now apply distinct_emails_reordered|].
  intros e. rewrite Hg. unfold email_subscription, email_fee_waiver.
  rewrite (get_highest_subscription_reordered
             (profiles_of a e G7S1) (profiles_of a' e G7S1)
             (profiles_of a e G7S2) (profiles_of a' e G7S2))
    by now apply profiles_of_reordered.
  rewrite (existsb_reordered is_fee_waiver
             (profiles_of a e G7S1 ++ profiles_of a e G7S2)
             (profiles_of a' e G7S1 ++ profiles_of a' e G7S2)); [reflexivity|].
  apply Permutation_app; now apply profiles_of_reordered.
Qed.

(** X7. The figures of the result do not depend on the order in which the
    profiles were fetched, nor on the shuffles: two runs on reorderings of
    the same profiles report the same totals, counts and breakdown cells. *)
Theorem figures_independent_of_fetch_order :
  forall (rng : Type) (shuffle : rng -> list string -> list string * rng),
    (forall g l, Permutation l (fst (shuffle g l))) ->
    forall (seed seed' : rng) (T : Z) (fetched fetched' : list user),
      Permutation fetched fetched' ->
      exists r r',
        run rng shuffle seed T fetched = Some r /\
        run rng shuffle seed' T fetched' = Some r' /\
        same_figures r r'.
Proof.
  intros rng shuffle Hshuf seed seed' T fetched fetched' Hp.
  destruct (run_reports rng shuffle Hshuf seed T fetched)
    as (r & Hr & U & W & M & C2 & C1 & Cb & P & K).
  destruct (run_reports rng shuffle Hshuf seed' T fetched')
    as (r' & Hr' & U' & W' & M' & C2' & C1' & Cb' & P' & K').
  exists r, r'. split; [exact Hr|]. split; [exact Hr'|].
  assert (Ha : Permutation (accurate_users T fetched) (accurate_users T fetched'))
    by now apply Permutation_filter'.
  pose proof (distinct_emails_reordered _ _ Ha) as Hd.
  pose proof (email_tests_reordered _ _ Ha) as Ht.
  unfold same_figures.
  rewrite U, U', W, W', M, M', C2, C2', C1, C1', Cb, Cb', P, P'.
  unfold multiple_profile_emails, both_emails.
  split; [now apply Permutation_length|].
  split; [now apply Permutation_length|].
  split; [apply length_filter_reordered; [exact Hd | intros e; apply Ht]|].
  split; [apply length_filter_reordered; [exact Hd | intros e; apply Ht]|].
  split; [apply length_filter_reordered; [exact Hd | intros e; apply Ht]|].
  split; [apply length_filter_reordered; [exact Hd | intros e; apply Ht]|].
  split.
  - rewrite (filter_ext _ (email_both (accurate_users T fetched'))
               (fun e => proj1 (proj2 (proj2 (Ht e))))).
    rewrite (map_ext _ (fun e => n_7s1 (accurate_users T fetched') e
                                 + n_7s2 (accurate_users T fetched') e)).
    + apply Permutation_list_sum, Permutation_map. now apply Permutation_filter'.
    + intros e. destruct (n_reordered _ _ Ha e) as (-> & -> & _). reflexivity.
  - intros fw name. destruct (K fw name) as (-> & -> & ->).
    destruct (K' fw name) as (-> & -> & ->).
    repeat split; apply counted_emails_reordered; try exact Ha;
      intros e; apply Ht.
Qed.

Lemma figures_independent_of_fetch_order_witness :
  (forall g l, Permutation l (fst (reverse_shuffle g l))) /\
  Permutation sample_window (rev sample_window) /\
  exists r r',
    run unit reverse_shuffle tt 100 sample_window = Some r /\
    run unit reverse_shuffle tt 100 (rev sample_window) = Some r' /\
    same_figures r r'.
Proof.
  split; [exact reverse_shuffle_perm|].
  split; [apply Permutation_rev|].
  apply (figures_independent_of_fetch_order unit reverse_shuffle
           reverse_shuffle_perm tt tt 100 sample_window (rev sample_window)).
  apply Permutation_rev.
Defined.

(** ** Batches *)

Lemma batch_count_covers total batch_size :
  0 < batch_size -> total <= batch_count total batch_size * batch_size.
Proof.
  intros H. unfold batch_count.
  pose proof (Nat.div_mod_eq (total + batch_size - 1) batch_size).
  pose proof (Nat.mod_upper_bound (total + batch_size - 1) batch_size).
  nia.
Qed.

Lemma batch_count_start k total batch_size :
  0 < batch_size -> k < batch_count total batch_size -> k * batch_size < total.
Proof.
  intros H Hk. unfold batch_count in Hk.
  pose proof (Nat.div_mod_eq (total + batch_size - 1) batch_size).
  nia.
Qed.


Lemma slice_shift {A : Type} (l : list A) k n :
  slice l (S k * n) n = slice (skipn n l) (k * n) n.
Proof.
  unfold slice. rewrite skipn_skipn. f_equal. f_equal. simpl. lia.
Qed.

Lemma concat_slices {A : Type} n batch_size :
  forall l : list A,
    length l <= n * batch_size ->
    concat (map (fun k => slice l (k * batch_size) batch_size) (seq 0 n)) = l.
Proof.
  induction n as [|n IH]; intros l Hlen.
  - simpl in *. destruct l; [reflexivity | simpl in Hlen; lia].
  - cbn [seq map concat]. rewrite <- seq_shift, map_map.
    rewrite (map_ext _ (fun k => slice (skipn batch_size l) (k * batch_size)
                                       batch_size))
      by (intros k; apply slice_shift).
    rewrite IH.
    + unfold slice. simpl. apply firstn_skipn.
    + rewrite length_skipn. simpl in Hlen. lia.
Qed.

Lemma slice_length {A : Type} (l : list A) i n :
  length (slice l i n) = Nat.min n (length l - i).
Proof. unfold slice. now rewrite length_firstn, length_skipn. Qed.

Lemma posted_batches_app log log' :
  posted_batches (log ++ log') = posted_batches log ++ posted_batches log'.
Proof. unfold posted_batches. now rewrite flat_map_app. Qed.

Lemma slept_seconds_app log log' :
  slept_seconds (log ++ log') = slept_seconds log + slept_seconds log'.
Proof. unfold slept_seconds. now rewrite map_app, list_sum_app. Qed.

Lemma list_sum_cons (n : nat) (l : list nat) :
  list_sum (n :: l) = n + list_sum l.
Proof. reflexivity. Qed.

Lemma posted_batches_one ev :
  posted_batches [ev] =
  match ev with Posted _ batch => [batch] | Slept _ => [] end.
Proof. destruct ev; reflexivity. Qed.

Lemma slept_seconds_one ev :
  slept_seconds [ev] = match ev with Posted _ _ => 0 | Slept n => n end.
Proof. destruct ev; unfold slept_seconds; simpl; lia. Qed.

(** One iteration: it raises exactly on an exception without response, and
    otherwise posts one batch and updates one counter. *)
Lemma tag_batch_step api profile_ids tag_name batch_size st i :
  let o := tag_call api profile_ids batch_size i in
  let batch := slice profile_ids i batch_size in
  match tag_batch api profile_ids tag_name batch_size st i with
  | None => o = TagNoResponse
  | Some st' =>
      o <> TagNoResponse /\
      successful_tags st' =
        successful_tags st + (if tag_call_ok o then length batch else 0) /\
      failed_batches st' =
        failed_batches st + (if tag_call_ok o then 0 else 1) /\
      posted_batches (tag_log st') = posted_batches (tag_log st) ++ [batch] /\
      slept_seconds (tag_log st') =
        slept_seconds (tag_log st) + wait_after o +
        (if (i + batch_size <? length profile_ids)%nat then 2 else 0)
  end.
Proof.
  unfold tag_batch, tag_call.
  destruct (api (i / batch_size + 1) (slice profile_ids i batch_size))
    as [|status_code retry_after|]; cbn [bind]; [| |reflexivity].
  - destruct (i + batch_size <? length profile_ids)%nat;
      cbn [successful_tags failed_batches tag_log tag_call_ok wait_after];
      rewrite ?posted_batches_app, ?slept_seconds_app,
        ?posted_batches_one, ?slept_seconds_one;
      change (slept_seconds []) with 0;
      change (posted_batches []) with (@nil (list string));
      rewrite ?app_nil_r; repeat split; try discriminate; lia.
  - cbn [tag_call_ok wait_after].
    destruct (i + batch_size <? length profile_ids)%nat,
      (status_code =? 429)%nat;
      cbn [successful_tags failed_batches tag_log];
      rewrite ?posted_batches_app, ?slept_seconds_app,
        ?posted_batches_one, ?slept_seconds_one;
      change (slept_seconds []) with 0;
      change (posted_batches []) with (@nil (list string));
      rewrite ?app_nil_r; repeat split; try discriminate; lia.
Qed.

(** The loop over any list of indices. *)
Lemma for_each_tag_batch api profile_ids tag_name batch_size indices :
  forall st,
    match for_each (tag_batch api profile_ids tag_name batch_size) indices st with
    | None =>
        exists i, In i indices /\
                  tag_call api profile_ids batch_size i = TagNoResponse
    | Some st' =>
        (forall i, In i indices ->
                   tag_call api profile_ids batch_size i <> TagNoResponse) /\
        successful_tags st' =
          successful_tags st +
          list_sum (map (fun i =>
                           if tag_call_ok (tag_call api profile_ids batch_size i)
                           then length (slice profile_ids i batch_size) else 0)
                        indices) /\
        failed_batches st' =
          failed_batches st +
          list_sum (map (fun i =>
                           if tag_call_ok (tag_call api profile_ids batch_size i)
                           then 0 else 1) indices) /\
        posted_batches (tag_log st') =
          posted_batches (tag_log st) ++
          map (fun i => slice profile_ids i batch_size) indices /\
        slept_seconds (tag_log st') =
          slept_seconds (tag_log st) +
          list_sum (map (fun i =>
                           wait_after (tag_call api profile_ids batch_size i) +
                           (if (i + batch_size <? length profile_ids)%nat
                            then 2 else 0)) indices)
    end.
Proof.
  induction indices as [|i indices IH]; intros st.
  - simpl. rewrite app_nil_r. repeat split; try lia; intros i [].
  - cbn [for_each].
    pose proof (tag_batch_step api profile_ids tag_name batch_size st i) as Hs.
    cbv zeta in Hs.
    destruct (tag_batch api profile_ids tag_name batch_size st i) as [st1|].
    + cbn [bind]. specialize (IH st1).
      destruct Hs as (Hne & S1 & F1 & P1 & W1).
      destruct (for_each (tag_batch api profile_ids tag_name batch_size)
                         indices st1) as [st'|].
      * destruct IH as (Hall & S2 & F2 & P2 & W2).
        split; [intros j [<-|Hj]; auto|].
        rewrite S2, F2, P2, W2, S1, F1, P1, W1. cbn [map].
        rewrite !list_sum_cons, <- app_assoc.
        repeat split; try reflexivity; lia.
      * destruct IH as (j & Hj & Ej). exists j. split; [now right | exact Ej].
    + cbn [bind]. exists i. split; [now left | exact Hs].
Qed.

(** The run on a non-empty list with a positive batch size, through the
    loop's indices. *)
Lemma tagging_indices api x ids tag_name batch_size :
  0 < batch_size ->
  let profile_ids := x :: ids in
  let indices :=
    map (fun k => k * batch_size)
        (seq 0 (batch_count (length profile_ids) batch_size)) in
  tag_7s1_profiles_in_batches api profile_ids tag_name batch_size =
  match for_each (tag_batch api profile_ids tag_name batch_size) indices
          {| successful_tags := 0; failed_batches := 0; tag_log := [] |} with
  | Some st => Some (successful_tags st, failed_batches st, tag_log st)
  | None => None
  end.
Proof.
  intros Hpos. cbv zeta. unfold tag_7s1_profiles_in_batches, py_range.
  destruct (Nat.eqb_spec batch_size 0) as [->|_]; [lia|].
  cbn [bind]. unfold batch_count.
  destruct (for_each _ _ _); reflexivity.
Qed.


Lemma slices_sizes {A : Type} (l : list A) batch_size k :
  0 < batch_size -> k < batch_count (length l) batch_size ->
  1 <= length (slice l (k * batch_size) batch_size) <= batch_size.
Proof.
  intros Hpos Hk. rewrite slice_length.
  pose proof (batch_count_start k (length l) batch_size Hpos Hk). lia.
Qed.

(** The batches a run that returns has posted. *)
Lemma tagging_returned_batches api profile_ids tag_name batch_size s f log :
  tag_7s1_profiles_in_batches api profile_ids tag_name batch_size
    = Some (s, f, log) ->
  (profile_ids <> [] -> 0 < batch_size) /\
  posted_batches log =
    match profile_ids with
    | [] => []
    | _ :: _ =>
        map (fun k => slice profile_ids (k * batch_size) batch_size)
            (seq 0 (batch_count (length profile_ids) batch_size))
    end.
Proof.
  destruct profile_ids as [|x ids].
  { simpl. intros H. injection H as <- <- <-. split; [tauto | reflexivity]. }
  destruct (Nat.eq_dec batch_size 0) as [->|Hne]; [discriminate|].
  assert (Hpos : 0 < batch_size) by lia.
  rewrite (tagging_indices api x ids tag_name batch_size Hpos). cbv zeta.
  pose proof (for_each_tag_batch api (x :: ids) tag_name batch_size
                (map (fun k => k * batch_size)
                     (seq 0 (batch_count (length (x :: ids)) batch_size)))
                {| successful_tags := 0; failed_batches := 0; tag_log := [] |})
    as Hrun.
  destruct (for_each _ _ _) as [st|]; [|discriminate].
  destruct Hrun as (_ & _ & _ & Hp & _).
  intros H. injection H as <- <- <-. split; [auto|].
  rewrite Hp. cbn [tag_log posted_batches flat_map app]. now rewrite map_map.
Qed.

(** X8. A tagging run that returns has posted every profile id exactly
    once, in order: the batches posted are consecutive stretches of the id
    list, each with at least one and at most batch_size ids, their number
    is the list's length over the batch size rounded up, and a refused
    batch is not posted again. *)
Theorem tagging_posts_every_id_once :
  forall api profile_ids tag_name batch_size s f log,
    tag_7s1_profiles_in_batches api profile_ids tag_name batch_size
      = Some (s, f, log) ->
    concat (posted_batches log) = profile_ids /\
    length (posted_batches log) =
      match profile_ids with
      | [] => 0
      | _ :: _ => batch_count (length profile_ids) batch_size
      end /\
    Forall (fun batch => 1 <= length batch <= batch_size) (posted_batches log).
Proof.
  intros api profile_ids tag_name batch_size s f log Hrun.
  destruct (tagging_returned_batches api profile_ids tag_name batch_size
              s f log Hrun) as (Hpos & ->).
  destruct profile_ids as [|x ids]; [repeat split; constructor|].
  assert (Hb : 0 < batch_size) by (apply Hpos; discriminate).
  split; [|split].
  - apply concat_slices. now apply batch_count_covers.
  - now rewrite length_map, length_seq.
  - apply Forall_forall. intros batch Hin.
    apply in_map_iff in Hin as (k & <- & Hk). apply in_seq in Hk.
    apply slices_sizes; [exact Hb | lia].
Qed.

Lemma tagging_posts_every_id_once_witness :
  tag_7s1_profiles_in_batches
    (fun k _ => if (k =? 2)%nat then TagRefused 429 (Some 7) else TagOk)
    ["p1"; "p2"; "p3"; "p4"; "p5"] "Recently Active on 7S1 Only" 2
  = Some (3, 1,
          [Posted "Recently Active on 7S1 Only" ["p1"; "p2"]; Slept 2;
           Posted "Recently Active on 7S1 Only" ["p3"; "p4"]; Slept 7; Slept 2;
           Posted "Recently Active on 7S1 Only" ["p5"]]) /\
  concat (posted_batches
            [Posted "Recently Active on 7S1 Only" ["p1"; "p2"]; Slept 2;
             Posted "Recently Active on 7S1 Only" ["p3"; "p4"]; Slept 7; Slept 2;
             Posted "Recently Active on 7S1 Only" ["p5"]])
    = ["p1"; "p2"; "p3"; "p4"; "p5"] /\
  length (posted_batches
            [Posted "Recently Active on 7S1 Only" ["p1"; "p2"]; Slept 2;
             Posted "Recently Active on 7S1 Only" ["p3"; "p4"]; Slept 7; Slept 2;
             Posted "Recently Active on 7S1 Only" ["p5"]])
    = batch_count 5 2 /\
  Forall (fun batch => 1 <= length batch <= 2)
    (posted_batches
       [Posted "Recently Active on 7S1 Only" ["p1"; "p2"]; Slept 2;
        Posted "Recently Active on 7S1 Only" ["p3"; "p4"]; Slept 7; Slept 2;
        Posted "Recently Active on 7S1 Only" ["p5"]]).
Proof.
  split; [reflexivity|].
  apply (tagging_posts_every_id_once
           (fun k _ => if (k =? 2)%nat then TagRefused 429 (Some 7) else TagOk)
           ["p1"; "p2"; "p3"; "p4"; "p5"] "Recently Active on 7S1 Only" 2 3 1).
  reflexivity.
Defined.

Lemma tag_accounting (ok : nat -> bool) (size : nat -> nat) batch_size indices :
  (forall i, In i indices -> 1 <= size i <= batch_size) ->
  let s := list_sum (map (fun i => if ok i then size i else 0) indices) in
  let f := list_sum (map (fun i => if ok i then 0 else 1) indices) in
  let total := list_sum (map size indices) in
  s + f <= total /\ total <= s + f * batch_size /\ f <= length indices /\
  ((forall i, In i indices -> ok i = true) -> s = total /\ f = 0).
Proof.
  induction indices as [|i indices IH]; intros Hsize; cbv zeta in *.
  - simpl. repeat split; lia.
  - assert (Hi : 1 <= size i <= batch_size) by (apply Hsize; now left).
    destruct IH as (A & B & C & D); [intros; apply Hsize; now right|].
    cbn [map]. rewrite !list_sum_cons. cbn [length].
    repeat split.
    + destruct (ok i); lia.
    + destruct (ok i); nia.
    + destruct (ok i); lia.
    + rewrite (H i (or_introl eq_refl)).
      destruct D as [D _]; [intros; apply H; now right|]. lia.
    + rewrite (H i (or_introl eq_refl)).
      destruct D as [_ D]; [intros; apply H; now right|]. lia.
Qed.

(** X9. The two counters of a tagging run that returns account for every
    id: each id is in a batch counted as tagged or in a failed batch, so
    successful_tags + failed_batches <= ids <= successful_tags +
    failed_batches * batch_size; no failed batch means every id was tagged,
    and when every call goes through the run returns (ids, 0). *)
Theorem tagging_counters_account_for_ids :
  forall api profile_ids tag_name batch_size s f log,
    tag_7s1_profiles_in_batches api profile_ids tag_name batch_size
      = Some (s, f, log) ->
    s + f <= length profile_ids /\
    length profile_ids <= s + f * batch_size /\
    f <= length (posted_batches log) /\
    (f = 0 -> s = length profile_ids) /\
    ((forall k batch, api k batch = TagOk) -> s = length profile_ids /\ f = 0).
Proof.
  intros api profile_ids tag_name batch_size s f log Hrun.
  destruct profile_ids as [|x ids].
  { simpl in Hrun. injection Hrun as <- <- <-. simpl. repeat split; lia. }
  destruct (Nat.eq_dec batch_size 0) as [->|Hne]; [discriminate|].
  assert (Hpos : 0 < batch_size) by lia.
  rewrite (tagging_indices api x ids tag_name batch_size Hpos) in Hrun.
  cbv zeta in Hrun.
  set (indices := map (fun k => k * batch_size)
                      (seq 0 (batch_count (length (x :: ids)) batch_size))) in *.
  pose proof (for_each_tag_batch api (x :: ids) tag_name batch_size indices
                {| successful_tags := 0; failed_batches := 0; tag_log := [] |})
    as Hloop.
  destruct (for_each _ _ _) as [st|]; [|discriminate].
  destruct Hloop as (_ & Hs & Hf & Hp & _).
  injection Hrun as <- <- <-. cbn [successful_tags failed_batches tag_log] in *.
  assert (Hsize : forall i, In i indices ->
                    1 <= length (slice (x :: ids) i batch_size) <= batch_size).
  { intros i Hi. apply in_map_iff in Hi as (k & <- & Hk). apply in_seq in Hk.
    apply slices_sizes; [exact Hpos | lia]. }
  destruct (tag_accounting
              (fun i => tag_call_ok (tag_call api (x :: ids) batch_size i))
              (fun i => length (slice (x :: ids) i batch_size))
              batch_size indices Hsize) as (A & B & C & D).
  assert (Htotal : list_sum (map (fun i => length (slice (x :: ids) i batch_size))
                                 indices) = length (x :: ids)).
  { transitivity
      (length (concat (map (fun k => slice (x :: ids) (k * batch_size) batch_size)
                           (seq 0 (batch_count (length (x :: ids)) batch_size))))).
    - rewrite length_concat. subst indices. now rewrite !map_map.
    - f_equal. apply concat_slices. now apply batch_count_covers. }
  rewrite Htotal in A, B, D.
  rewrite Hs, Hf, Hp. cbn [posted_batches flat_map app]. rewrite length_map.
  repeat split; try lia.
  - apply D. intros i _. unfold tag_call. now rewrite H.
  - apply D. intros i _. unfold tag_call. now rewrite H.
Qed.

Lemma tagging_counters_account_for_ids_witness :
  tag_7s1_profiles_in_batches
    (fun k _ => if (k =? 2)%nat then TagRefused 500 None else TagOk)
    ["p1"; "p2"; "p3"; "p4"; "p5"] "Recently Active on 7S1 Only" 2
  = Some (3, 1,
          [Posted "Recently Active on 7S1 Only" ["p1"; "p2"]; Slept 2;
           Posted "Recently Active on 7S1 Only" ["p3"; "p4"]; Slept 2;
           Posted "Recently Active on 7S1 Only" ["p5"]]) /\
  3 + 1 <= length ["p1"; "p2"; "p3"; "p4"; "p5"] /\
  length ["p1"; "p2"; "p3"; "p4"; "p5"] <= 3 + 1 * 2 /\
  1 <= length (posted_batches
                 [Posted "Recently Active on 7S1 Only" ["p1"; "p2"]; Slept 2;
                  Posted "Recently Active on 7S1 Only" ["p3"; "p4"]; Slept 2;
                  Posted "Recently Active on 7S1 Only" ["p5"]]) /\
  (1 = 0 -> 3 = length ["p1"; "p2"; "p3"; "p4"; "p5"]) /\
  ((forall k (batch : list string),
      (if (k =? 2)%nat then TagRefused 500 None else TagOk) = TagOk) ->
   3 = length ["p1"; "p2"; "p3"; "p4"; "p5"] /\ 1 = 0).
Proof.
  split; [reflexivity|].
  apply (tagging_counters_account_for_ids
           (fun k _ => if (k =? 2)%nat then TagRefused 500 None else TagOk)
           ["p1"; "p2"; "p3"; "p4"; "p5"] "Recently Active on 7S1 Only" 2 3 1).
  reflexivity.
Defined.






(** ** The payload for Coda *)

Lemma cell_count_lookup name table c :
  dict_lookup name table = Some c ->
  cell_count false name table = regular c /\
  cell_count true name table = fee_waiver c.
Proof. unfold cell_count. intros ->. now split. Qed.

Lemma append_subscription_rows_eq display_name c counts_array name :
  append_subscription_rows display_name c counts_array name =
  match dict_lookup name (subscription_breakdown c) with
  | Some cell =>
      Some (counts_array ++
            [ {| category := display_name; subscription := name;
                 row_fee_waiver := false; total := regular cell |};
              {| category := display_name; subscription := name;
                 row_fee_waiver := true; total := fee_waiver cell |} ])
  | None => None
  end.
Proof.
  unfold append_subscription_rows.
  now destruct (dict_lookup name (subscription_breakdown c)).
Qed.

Lemma subscription_rows_loop display_name c subs :
  forall counts_array,
    match for_each (append_subscription_rows display_name c) subs counts_array with
    | Some rows =>
        (forall name, In name subs ->
                      In name (dict_keys (subscription_breakdown c))) /\
        rows =
          counts_array ++
          flat_map (fun subscription =>
                      [ {| category := display_name; subscription := subscription;
                           row_fee_waiver := false;
                           total := cell_count false subscription
                                      (subscription_breakdown c) |};
                        {| category := display_name; subscription := subscription;
                           row_fee_waiver := true;
                           total := cell_count true subscription
                                      (subscription_breakdown c) |} ]) subs
    | None =>
        exists name, In name subs /\
                     ~ In name (dict_keys (subscription_breakdown c))
    end.
Proof.
  induction subs as [|name subs IH]; intros counts_array.
  - simpl. rewrite app_nil_r. split; [intros name []|reflexivity].
  - cbn [for_each]. rewrite append_subscription_rows_eq.
    destruct (dict_lookup name (subscription_breakdown c)) as [cell|] eqn:E.
    + cbn [bind]. destruct (cell_count_lookup _ _ _ E) as [Er Ef].
      specialize (IH (counts_array ++
        [ {| category := display_name; subscription := name;
             row_fee_waiver := false; total := regular cell |};
          {| category := display_name; subscription := name;
             row_fee_waiver := true; total := fee_waiver cell |} ])).
      destruct (for_each _ subs _) as [rows|].
      * destruct IH as [Hall ->]. split.
        -- intros n [<-|Hn]; [now apply dict_lookup_keys in E | now apply Hall].
        -- cbn [flat_map]. rewrite Er, Ef, <- app_assoc. reflexivity.
      * destruct IH as (n & Hn & Hmiss). exists n. split; [now right | exact Hmiss].
    + cbn [bind]. exists name. split; [now left|].
      now apply dict_lookup_None.
Qed.

Lemma category_rows_step data counts_array internal_name display_name :
  match append_category_rows data counts_array (internal_name, display_name) with
  | Some rows =>
      has_subscriptions (data_category data internal_name) /\
      rows = counts_array ++
             rows_of_present display_name (data_category data internal_name)
  | None => ~ has_subscriptions (data_category data internal_name)
  end.
Proof.
  unfold append_category_rows.
  destruct (data_category data internal_name) as [c|].
  - pose proof (subscription_rows_loop display_name c subscriptions counts_array)
      as H.
    destruct (for_each _ subscriptions counts_array) as [rows|].
    + destruct H as [Hall ->]. split; [exact Hall | reflexivity].
    + destruct H as (name & Hin & Hmiss). intros Hall. apply Hmiss.
      now apply Hall.
  - cbn [has_subscriptions rows_of_present]. rewrite app_nil_r.
    split; [exact I | reflexivity].
Qed.

(** The two outcomes of building the payload. *)
Lemma send_to_coda_cases :
  forall (RECENCY_DAYS : Z) (data : coda_data),
    match send_to_coda RECENCY_DAYS data with
    | Some payload =>
        p_counts payload =
          rows_of_present "7S2" (cd_only_7s2 data) ++
          rows_of_present "7S1" (cd_only_7s1 data) ++
          rows_of_present "Both" (cd_both data) /\
        cd_run_id data = Some (p_run_id payload) /\
        cd_timestamp data = Some (p_timestamp payload) /\
        p_recency_days payload = RECENCY_DAYS /\
        p_tagging_results payload = cd_tagging_results data /\
        has_subscriptions (cd_only_7s2 data) /\
        has_subscriptions (cd_only_7s1 data) /\
        has_subscriptions (cd_both data)
    | None =>
        ~ has_subscriptions (cd_only_7s2 data) \/
        ~ has_subscriptions (cd_only_7s1 data) \/
        ~ has_subscriptions (cd_both data) \/
        cd_run_id data = None \/ cd_timestamp data = None
    end.
Proof.
  intros RECENCY_DAYS data. unfold send_to_coda, category_map.
  cbn [for_each].
  pose proof (category_rows_step data [] "only_7s2" "7S2") as H2.
  destruct (append_category_rows data [] ("only_7s2", "7S2")) as [rows2|];
    cbn [bind]; [|now left].
  destruct H2 as [K2 ->].
  pose proof (category_rows_step data
                ([] ++ rows_of_present "7S2" (data_category data "only_7s2"))
                "only_7s1" "7S1") as H1.
  destruct (append_category_rows data _ ("only_7s1", "7S1")) as [rows1|];
    cbn [bind]; [|now right; left].
  destruct H1 as [K1 ->].
  pose proof (category_rows_step data
                (([] ++ rows_of_present "7S2" (data_category data "only_7s2"))
                 ++ rows_of_present "7S1" (data_category data "only_7s1"))
                "both" "Both") as Hb.
  destruct (append_category_rows data _ ("both", "Both")) as [rowsb|];
    cbn [bind]; [|now right; right; left].
  destruct Hb as [Kb ->].
  change (data_category data "only_7s2") with (cd_only_7s2 data) in *.
  change (data_category data "only_7s1") with (cd_only_7s1 data) in *.
  change (data_category data "both") with (cd_both data) in *.
  destruct (cd_run_id data) as [run_id|]; cbn [bind]; [|now right; right; right; left].
  destruct (cd_timestamp data) as [timestamp|]; cbn [bind];
    [|now right; right; right; right].
  cbn [p_counts p_run_id p_timestamp p_recency_days p_tagging_results].
  rewrite <- app_assoc. repeat split; assumption.
Qed.

Lemma rows_of_length display_name c : length (rows_of display_name c) = 12.
Proof. reflexivity. Qed.

(** X13. The body sent to Coda.  When [send_to_coda] builds its payload,
    the counts are the rows of the categories present in the data, in the
    order 7S2, 7S1, Both; a category contributes twelve rows, the six
    subscriptions in the fixed order with the regular count before the
    fee-waiver count, and an absent category contributes none.  It raises
    a KeyError exactly when a present category lacks one of the six
    subscriptions or the data has no run id or no timestamp. *)
Theorem send_to_coda_rows :
  forall (RECENCY_DAYS : Z) (data : coda_data),
    (forall payload,
       send_to_coda RECENCY_DAYS data = Some payload ->
       p_counts payload =
         rows_of_present "7S2" (cd_only_7s2 data) ++
         rows_of_present "7S1" (cd_only_7s1 data) ++
         rows_of_present "Both" (cd_both data) /\
       length (p_counts payload) =
         12 * (present_count (cd_only_7s2 data) +
               present_count (cd_only_7s1 data) +
               present_count (cd_both data)) /\
       cd_run_id data = Some (p_run_id payload) /\
       cd_timestamp data = Some (p_timestamp payload) /\
       p_recency_days payload = RECENCY_DAYS /\
       p_tagging_results payload = cd_tagging_results data) /\
    (send_to_coda RECENCY_DAYS data = None <->
     ~ has_subscriptions (cd_only_7s2 data) \/
     ~ has_subscriptions (cd_only_7s1 data) \/
     ~ has_subscriptions (cd_both data) \/
     cd_run_id data = None \/ cd_timestamp data = None).
Proof.
  intros RECENCY_DAYS data.
  pose proof (send_to_coda_cases RECENCY_DAYS data) as H.
  destruct (send_to_coda RECENCY_DAYS data) as [p|].
  - destruct H as (Hrows & Hid & Hts & Hdays & Htag & K2 & K1 & Kb). split.
    + intros payload E. injection E as <-.
      split; [exact Hrows|]. split; [|auto].
      rewrite Hrows, !length_app.
      destruct (cd_only_7s2 data), (cd_only_7s1 data), (cd_both data);
        cbn [rows_of_present present_count]; rewrite ?rows_of_length;
        reflexivity.
    + split; [discriminate|].
      intros [N|[N|[N|[N|N]]]]; try contradiction;
        rewrite N in *; discriminate.
  - split; [discriminate|]. split; [intros _; exact H | reflexivity].
Qed.

Lemma rows_of_category display_name c row :
  In row (rows_of display_name c) -> category row = display_name.
Proof.
  unfold rows_of. rewrite in_flat_map.
  intros (name & _ & [<-|[<-|[]]]); reflexivity.
Qed.

Lemma filter_all {A : Type} (f : A -> bool) (l : list A) :
  (forall x, In x l -> f x = true) -> filter f l = l.
Proof.
  induction l as [|x l IH]; intros H; simpl; [reflexivity|].
  rewrite (H x (or_introl eq_refl)), IH; auto. intros; apply H; now right.
Qed.

Lemma filter_none {A : Type} (f : A -> bool) (l : list A) :
  (forall x, In x l -> f x = false) -> filter f l = [].
Proof.
  induction l as [|x l IH]; intros H; simpl; [reflexivity|].
  rewrite (H x (or_introl eq_refl)), IH; auto. intros; apply H; now right.
Qed.

Lemma rows_of_filter display_name display_name' c :
  filter (fun row => String.eqb (category row) display_name')
         (rows_of display_name c) =
  if String.eqb display_name display_name' then rows_of display_name c else [].
Proof.
  destruct (String.eqb_spec display_name display_name') as [<-|Hne].
  - apply filter_all. intros row Hin.
    rewrite (rows_of_category _ _ _ Hin). apply String.eqb_refl.
  - apply filter_none. intros row Hin.
    rewrite (rows_of_category _ _ _ Hin).
    now destruct (String.eqb_spec display_name display_name').
Qed.

Lemma rows_of_sum display_name c :
  list_sum (map total (rows_of display_name c)) =
  list_sum (map (fun name => cell_count false name (subscription_breakdown c) +
                             cell_count true name (subscription_breakdown c))
                subscriptions).
Proof.
  unfold rows_of. induction subscriptions as [|name subs IH]; [reflexivity|].
  cbn [flat_map map app]. rewrite !list_sum_cons, IH.
  cbn [total]. lia.
Qed.

(** The rows of a category in a full payload add up to the cells of that
    category's breakdown. *)
Lemma rows_total_of c2 c1 cb :
  let rows := rows_of "7S2" c2 ++ rows_of "7S1" c1 ++ rows_of "Both" cb in
  rows_total "7S2" rows =
    list_sum (map (fun name => cell_count false name (subscription_breakdown c2) +
                               cell_count true name (subscription_breakdown c2))
                  subscriptions) /\
  rows_total "7S1" rows =
    list_sum (map (fun name => cell_count false name (subscription_breakdown c1) +
                               cell_count true name (subscription_breakdown c1))
                  subscriptions) /\
  rows_total "Both" rows =
    list_sum (map (fun name => cell_count false name (subscription_breakdown cb) +
                               cell_count true name (subscription_breakdown cb))
                  subscriptions).
Proof.
  cbv zeta. unfold rows_total. rewrite !filter_app, !rows_of_filter.
  repeat split;
    match goal with
    | |- context [String.eqb ?a ?b] => idtac
    end;
    repeat match goal with
           | |- context [String.eqb ?a ?b] =>
               let v := eval vm_compute in (String.eqb a b) in
               change (String.eqb a b) with v
           end;
    cbn [app]; rewrite ?app_nil_r; apply rows_of_sum.
Qed.

(** ** Configuration and the report *)

Lemma get_config_lookup environ config_json :
  dict_get "coda_webhook_url" (get_config environ config_json) VNone =
    configured environ config_json "CODA_WEBHOOK_URL" "coda_webhook_url" /\
  dict_get "coda_api_token" (get_config environ config_json) VNone =
    configured environ config_json "CODA_API_TOKEN" "coda_api_token".
Proof.
  unfold get_config, configured.
  destruct (environ "CODA_WEBHOOK_URL") as [u|];
    destruct (environ "CODA_API_TOKEN") as [t|];
    destruct config_json as [file_config|];
    cbn [truthy];
    repeat match goal with
           | |- context [String.eqb ?s ""] => destruct (String.eqb s "")
           end;
    cbn; split; reflexivity.
Qed.

(** X15. [get_config] gives the environment precedence: for the webhook
    URL and for the API token, a non-empty environment variable is the
    configured value whatever config.json says; an unset or empty variable
    leaves the value of config.json, and None when the file is missing,
    unreadable or lacks the key. *)
Theorem get_config_environment_first :
  forall (environ : string -> option string) (config_json : option (dict value)),
    let config := get_config environ config_json in
    let from_file key :=
      match config_json with
      | Some file_config => dict_get key file_config VNone
      | None => VNone
      end in
    (forall s, environ "CODA_WEBHOOK_URL" = Some s -> s <> "" ->
               dict_get "coda_webhook_url" config VNone = VStr s) /\
    (truthy (environ "CODA_WEBHOOK_URL") = false ->
     dict_get "coda_webhook_url" config VNone = from_file "coda_webhook_url") /\
    (forall s, environ "CODA_API_TOKEN" = Some s -> s <> "" ->
               dict_get "coda_api_token" config VNone = VStr s) /\
    (truthy (environ "CODA_API_TOKEN") = false ->
     dict_get "coda_api_token" config VNone = from_file "coda_api_token") /\
    (config_json = None ->
     truthy (environ "CODA_WEBHOOK_URL") = false ->
     dict_get "coda_webhook_url" config VNone = VNone).
Proof.
  intros environ config_json. cbv zeta.
  destruct (get_config_lookup environ config_json) as [-> ->].
  unfold configured. repeat split.
  - intros s -> Hne. now destruct (String.eqb_spec s "").
  - destruct (environ "CODA_WEBHOOK_URL") as [s|]; cbn [truthy]; [|reflexivity].
    destruct (String.eqb s ""); [reflexivity | discriminate].
  - intros s -> Hne. now destruct (String.eqb_spec s "").
  - destruct (environ "CODA_API_TOKEN") as [s|]; cbn [truthy]; [|reflexivity].
    destruct (String.eqb s ""); [reflexivity | discriminate].
  - intros -> Ht. destruct (environ "CODA_WEBHOOK_URL") as [s|]; [|reflexivity].
    cbn [truthy] in Ht. now destruct (String.eqb s "").
Qed.

(** X16. [get_token] exits only when INTERCOM_TOKEN is unset or empty and
    config.json cannot be read; a non-empty variable is the token whatever
    the file holds, and a readable file without the key yields None as the
    token, not an exit. *)
Theorem get_token_sources :
  forall (environ : string -> option string) (config_json : option (dict value)),
    (get_token environ config_json = Exit1 <->
     truthy (environ "INTERCOM_TOKEN") = false /\ config_json = None) /\
    (forall token, environ "INTERCOM_TOKEN" = Some token -> token <> "" ->
                   get_token environ config_json = Token (VStr token)) /\
    (forall config, truthy (environ "INTERCOM_TOKEN") = false ->
                    config_json = Some config ->
                    get_token environ config_json =
                      Token (dict_get "intercom_token" config VNone) /\
                    (~ In "intercom_token" (dict_keys config) ->
                     get_token environ config_json = Token VNone)).
Proof.
  intros environ config_json. unfold get_token. split; [|split].
  - destruct (environ "INTERCOM_TOKEN") as [token|]; cbn [truthy].
    + destruct (String.eqb token ""); cbn [negb].
      * destruct config_json; split; try discriminate; auto.
        intros [_ H]. discriminate.
      * split; [discriminate | intros [H _]; discriminate].
    + destruct config_json; split; try discriminate; auto.
      intros [_ H]. discriminate.
  - intros token -> Hne. cbn [truthy].
    destruct (String.eqb_spec token ""); [contradiction | reflexivity].
  - intros config Ht ->. rewrite Ht. split; [reflexivity|].
    intros Hnin. now rewrite (dict_get_absent _ _ _ Hnin).
Qed.

Lemma subscriptions_are_buckets : subscriptions = subscription_buckets.
Proof. reflexivity. Qed.

(** X14. What reaches Coda from a run.  The report is posted exactly when
    both the webhook URL and the API token are configured with a truthy
    value; the body then carries the run id, the timestamp, the recency
    days and the tagging results it was given and 36 count rows, and the
    rows of each category add up to that category's count. *)
Theorem report_rows_add_up :
  forall (rng : Type) (shuffle : rng -> list string -> list string * rng),
    (forall g l, Permutation l (fst (shuffle g l))) ->
    forall (seed : rng) (T : Z) (all_users_from_api : list user)
           (environ : string -> option string)
           (config_json : option (dict value)) (RECENCY_DAYS : Z)
           (tagging : option tagging_results) (run_id : string) (now : Z),
    exists r,
      run rng shuffle seed T all_users_from_api = Some r /\
      if value_truthy
           (configured environ config_json "CODA_WEBHOOK_URL" "coda_webhook_url")
         && value_truthy
              (configured environ config_json "CODA_API_TOKEN" "coda_api_token")
      then
        exists payload,
          report_to_coda environ config_json RECENCY_DAYS r tagging run_id now
            = Some (Some payload) /\
          p_run_id payload = run_id /\ p_timestamp payload = now /\
          p_recency_days payload = RECENCY_DAYS /\
          p_tagging_results payload = tagging /\
          length (p_counts payload) = 36 /\
          rows_total "7S2" (p_counts payload) = count (r_only_7s2 r) /\
          rows_total "7S1" (p_counts payload) = count (r_only_7s1 r) /\
          rows_total "Both" (p_counts payload) = count (r_both r)
      else
        report_to_coda environ config_json RECENCY_DAYS r tagging run_id now
          = Some None.
Proof.
  intros rng shuffle Hperm seed T all_users_from_api environ config_json
    RECENCY_DAYS tagging run_id now.
  destruct (run_result rng shuffle seed T all_users_from_api)
    as (d & st & Hd & Hst & Hrun).
  set (accurate := accurate_users T all_users_from_api) in *.
  set (r := build_result rng shuffle seed accurate d st) in *.
  destruct (build_result_samples rng shuffle Hperm seed accurate d st)
    as ((R2 & _) & (R1 & _) & (Rb & _)).
  destruct (build_result_breakdowns rng shuffle seed accurate d st)
    as (B2 & B1 & Bb).
  destruct (state_breakdown_totals d st Hst) as ((K2 & K1 & Kb) & S2 & S1 & Sb).
  fold r in R2, R1, Rb, B2, B1, Bb.
  rewrite <- B2 in K2, S2. rewrite <- B1 in K1, S1. rewrite <- Bb in Kb, Sb.
  rewrite <- R2 in S2. rewrite <- R1 in S1. rewrite <- Rb in Sb.
  exists r. split; [exact Hrun|].
  unfold report_to_coda.
  destruct (get_config_lookup environ config_json) as [-> ->].
  destruct (value_truthy _ && value_truthy _); [|reflexivity].
  pose proof (send_to_coda_cases RECENCY_DAYS
                {| cd_only_7s2 := Some (r_only_7s2 r);
                   cd_only_7s1 := Some (r_only_7s1 r);
                   cd_both := Some (r_both r);
                   cd_run_id := Some run_id;
                   cd_timestamp := Some now;
                   cd_tagging_results := tagging |}) as Hsend.
  destruct (send_to_coda RECENCY_DAYS _) as [payload|].
  - cbn [cd_only_7s2 cd_only_7s1 cd_both cd_run_id cd_timestamp
         cd_tagging_results rows_of_present] in Hsend.
    destruct Hsend as (Hrows & Hid & Hts & Hdays & Htag & _).
    exists payload. cbn [bind]. split; [reflexivity|].
    injection Hid as Hid. injection Hts as Hts.
    destruct (rows_total_of (r_only_7s2 r) (r_only_7s1 r) (r_both r))
      as (T2 & T1 & Tb).
    rewrite Hrows, T2, T1, Tb, subscriptions_are_buckets.
    rewrite <- (breakdown_total_cells _ K2), <- (breakdown_total_cells _ K1),
      <- (breakdown_total_cells _ Kb).
    rewrite !length_app, !rows_of_length.
    repeat split; auto.
  - exfalso.
    cbn [cd_only_7s2 cd_only_7s1 cd_both cd_run_id cd_timestamp
         has_subscriptions] in Hsend.
    rewrite K2, K1, Kb in Hsend.
    destruct Hsend as [H|[H|[H|[H|H]]]]; try discriminate;
      apply H; intros name Hin; exact Hin.
Qed.

Lemma report_rows_add_up_witness :
  (forall g l, Permutation l (fst (reverse_shuffle g l))) /\
  exists r,
    run unit reverse_shuffle tt 100 sample_window = Some r /\
    if value_truthy
         (configured (fun v => if String.eqb v "CODA_WEBHOOK_URL"
                               then Some "https://coda.example/hook" else None)
                     (Some [("coda_api_token", VStr "secret")])
                     "CODA_WEBHOOK_URL" "coda_webhook_url")
       && value_truthy
            (configured (fun v => if String.eqb v "CODA_WEBHOOK_URL"
                                  then Some "https://coda.example/hook" else None)
                        (Some [("coda_api_token", VStr "secret")])
                        "CODA_API_TOKEN" "coda_api_token")
    then
      exists payload,
        report_to_coda (fun v => if String.eqb v "CODA_WEBHOOK_URL"
                                 then Some "https://coda.example/hook" else None)
                       (Some [("coda_api_token", VStr "secret")])
                       7 r None "run-1" 1000 = Some (Some payload) /\
        p_run_id payload = "run-1" /\ p_timestamp payload = 1000%Z /\
        p_recency_days payload = 7%Z /\
        p_tagging_results payload = None /\
        length (p_counts payload) = 36 /\
        rows_total "7S2" (p_counts payload) = count (r_only_7s2 r) /\
        rows_total "7S1" (p_counts payload) = count (r_only_7s1 r) /\
        rows_total "Both" (p_counts payload) = count (r_both r)
    else
      report_to_coda (fun v => if String.eqb v "CODA_WEBHOOK_URL"
                               then Some "https://coda.example/hook" else None)
                     (Some [("coda_api_token", VStr "secret")])
                     7 r None "run-1" 1000 = Some None.
Proof.
  split; [exact reverse_shuffle_perm|].
  apply (report_rows_add_up unit reverse_shuffle reverse_shuffle_perm).
Defined.

(** ** Tagging in the main execution *)

(** X12. With --tag outside test mode the main execution posts exactly the
    collected ids: every id posted is the non-empty id of a 7S1 profile of
    the window whose email has no 7S2 profile, every such id is posted, in
    batches of at most 50, and total_profiles_to_tag is their number.
    Without --tag, or in test mode, nothing is posted and the result gets
    no tagging_results. *)
Theorem tag_mode_posts_the_collected_ids :
  forall (api : nat -> list string -> tag_outcome) (accurate : list user),
  exists d st,
    group_users accurate = Some d /\ categorize d = Some st /\
    (forall TAG_MODE TEST_MODE ids,
       TAG_MODE && negb TEST_MODE = false ->
       tagging_step TAG_MODE TEST_MODE api ids = Some (None, [])) /\
    forall results log,
      tagging_step true false api (only_7s1_profile_ids st)
        = Some (results, log) ->
      (exists tr, results = Some tr /\
                  total_profiles_to_tag tr = length (only_7s1_profile_ids st)) /\
      concat (posted_batches log) = only_7s1_profile_ids st /\
      Forall (fun batch => 1 <= length batch <= 50) (posted_batches log) /\
      forall i,
        In i (concat (posted_batches log)) <->
        exists u e,
          In u accurate /\ has_email e u = true /\ group_of u = G7S1 /\
          n_7s2 accurate e = 0 /\ u_id u = Some i /\ i <> "".
Proof.
  intros api accurate.
  destruct (window_categorized accurate) as (d & st & Hd & Hg & Hst & _).
  exists d, st. split; [exact Hd|]. split; [exact Hst|]. split.
  { intros TAG_MODE TEST_MODE ids H. unfold tagging_step. now rewrite H. }
  destruct (collected_ids d st accurate Hg Hst) as (_ & Hids).
  intros results log. unfold tagging_step. cbn [andb negb].
  destruct (only_7s1_profile_ids st) as [|x ids] eqn:E.
  - intros H. injection H as <- <-. split; [eexists; split; reflexivity|].
    split; [reflexivity|]. split; [constructor|]. exact Hids.
  - destruct (tag_7s1_profiles_in_batches api (x :: ids)
                "Recently Active on 7S1 Only" 50) as [[[s f] log']|] eqn:Et;
      [|discriminate].
    cbn [bind]. intros H. injection H as <- <-.
    destruct (tagging_returned_batches api (x :: ids) _ 50 s f log' Et)
      as (_ & Hp).
    assert (Hcat : concat (posted_batches log') = x :: ids).
    { rewrite Hp. apply concat_slices. apply batch_count_covers. lia. }
    split; [eexists; split; reflexivity|]. split; [exact Hcat|]. split.
    + rewrite Hp. apply Forall_forall. intros batch Hin.
      apply in_map_iff in Hin as (k & <- & Hk). apply in_seq in Hk.
      apply slices_sizes; lia.
    + intros i. rewrite Hcat. apply Hids.
Qed.

(** ** The timestamps *)

(** X17. The query is backdated enough: for a local zone less than a day
    away from UTC the query's start lies strictly before the start of the
    window and less than three days before it (in UTC: at least one day and
    less than two), so every profile of the window passes the query's
    last-seen test and the window filter loses nothing to it. *)
Theorem backdated_query_covers_window :
  forall (utc_offset now RECENCY_DAYS : Z) (all_users : list user),
    (- 86400 < utc_offset < 86400)%Z ->
    let T := min_last_seen_timestamp now RECENCY_DAYS in
    let Q := query_start_timestamp utc_offset now RECENCY_DAYS in
    (T - 3 * 86400 < Q < T)%Z /\
    (utc_offset = 0%Z -> (T - 2 * 86400 < Q <= T - 86400)%Z) /\
    (forall u, In u (accurate_users T all_users) -> (Q < last_seen_at u)%Z) /\
    accurate_users T (accurate_users Q all_users) = accurate_users T all_users.
Proof.
  intros utc_offset now RECENCY_DAYS all_users Hoff T Q.
  assert (Hmod : (0 <= T mod 86400 < 86400)%Z) by (apply Z.mod_pos_bound; lia).
  assert (HQ : (Q = T - T mod 86400 - utc_offset - 86400)%Z) by reflexivity.
  split; [lia|]. split; [intros ->; lia|]. split.
  - intros u Hu. unfold accurate_users in Hu. apply filter_In in Hu as [_ Hu].
    apply Z.ltb_lt in Hu. lia.
  - apply accurate_users_twice. lia.
Qed.

Lemma backdated_query_covers_window_witness :
  (- 86400 < -28800 < 86400)%Z /\
  let T := min_last_seen_timestamp 1700000000 7 in
  let Q := query_start_timestamp (-28800) 1700000000 7 in
  (T - 3 * 86400 < Q < T)%Z /\
  (-28800 = 0 -> (T - 2 * 86400 < Q <= T - 86400))%Z /\
  (forall u, In u (accurate_users T sample_window) -> (Q < last_seen_at u)%Z) /\
  accurate_users T (accurate_users Q sample_window) =
    accurate_users T sample_window.
Proof.
  split; [lia|].
  apply (backdated_query_covers_window (-28800) 1700000000 7 sample_window).
  lia.
Defined.

(** ** Fetching the pages *)

Lemma users_received_app log log' :
  users_received (log ++ log') = users_received log ++ users_received log'.
Proof. unfold users_received. now rewrite flat_map_app. Qed.

Lemma requests_made_app log log' :
  requests_made (log ++ log') = requests_made log + requests_made log'.
Proof. unfold requests_made. now rewrite filter_app, length_app. Qed.

Lemma cursor_after_app log log' current :
  cursor_after (log ++ log') current =
  cursor_after log' (cursor_after log current).
Proof.
  revert current. induction log as [|ev log IH]; intros current; [reflexivity|].
  destruct ev as [c [ra| | |users [[sa|]|]]|seconds]; simpl; apply IH.
Qed.

(** The result does not depend on the log kept. *)
Lemma fetch_loop_result api fuel :
  forall n all_users starting_after retry_count log log',
    fst (fetch_loop api fuel n all_users starting_after retry_count log) =
    fst (fetch_loop api fuel n all_users starting_after retry_count log').
Proof.
  induction fuel as [|fuel IH]; intros n all_users starting_after retry_count
    log log'; [reflexivity|].
  cbn [fetch_loop].
  destruct (api n (if truthy starting_after then starting_after else None))
    as [ra| | |users [sa|]]; try reflexivity.
  - destruct (5 <=? retry_count)%nat; [reflexivity | apply IH].
  - apply IH.
Qed.

(** What a stretch of the loop adds to the log and to the users. *)
Lemma fetch_loop_adds api fuel :
  forall n all_users starting_after retry_count log,
  exists new,
    snd (fetch_loop api fuel n all_users starting_after retry_count log) =
      log ++ new /\
    requests_made new <= fuel /\
    (forall users,
       fst (fetch_loop api fuel n all_users starting_after retry_count log)
         = Fetched users ->
       users = all_users ++ users_received new) /\
    (forall before c a later,
       new = before ++ Asked c a :: later ->
       c = cursor_after before
             (if truthy starting_after then starting_after else None) /\
       a = api (n + requests_made before) c).
Proof.
  induction fuel as [|fuel IH]; intros n all_users starting_after retry_count log.
  { exists []. cbn [fetch_loop fst snd]. rewrite app_nil_r.
    split; [reflexivity|]. split; [unfold requests_made; simpl; lia|]. split; [discriminate|].
    intros [|? ?] c a later H; discriminate. }
  cbn [fetch_loop].
  set (cursor := if truthy starting_after then starting_after else None).
  assert (Hfirst : forall answer new' before c a later,
            Asked cursor answer :: new' = before ++ Asked c a :: later ->
            answer = api n cursor ->
            (forall before' c' a' later',
               new' = before' ++ Asked c' a' :: later' ->
               c' = cursor_after before'
                      (cursor_after [Asked cursor answer] cursor) /\
               a' = api (S n + requests_made before') c') ->
            c = cursor_after before cursor /\
            a = api (n + requests_made before) c).
  { intros answer new' before c a later E Ea Hrest.
    destruct before as [|ev before]; simpl in E.
    - injection E as <- <- _. simpl. rewrite Nat.add_0_r. now split.
    - injection E as <- E.
      destruct (Hrest before c a later E) as [Hc Ha]. split.
      + rewrite Hc. now rewrite <- (cursor_after_app [Asked cursor answer]).
      + rewrite Ha. f_equal.
        change (Asked cursor answer :: before)
          with ([Asked cursor answer] ++ before).
        rewrite requests_made_app. simpl. lia. }
  destruct (api n cursor) as [ra| | |users [sa|]] eqn:Ea.
  - (* 429 *)
    destruct (5 <=? retry_count)%nat.
    + exists [Asked cursor (RateLimited ra)]. cbn [fst snd].
      split; [reflexivity|]. split; [unfold requests_made; simpl; lia|]. split; [discriminate|].
      intros before c a later E.
      apply (Hfirst (RateLimited ra) [] before c a later E eq_refl).
      intros [|? ?] ? ? ? H; discriminate.
    + destruct (IH (S n) all_users starting_after (retry_count + 1)
                  ((log ++ [Asked cursor (RateLimited ra)]) ++
                   [Waited (match ra with Some s => s | None => 10 end)]))
        as (new & Hlog & Hreq & Husers & Hc).
      exists (Asked cursor (RateLimited ra) ::
              Waited (match ra with Some s => s | None => 10 end) :: new).
      split; [rewrite Hlog, <- !app_assoc; reflexivity|].
      split; [unfold requests_made in *; simpl; lia|].
      split.
      * intros users0 Hres. rewrite (Husers users0 Hres).
        unfold users_received. reflexivity.
      * intros before c a later E.
        apply (Hfirst (RateLimited ra) _ before c a later E eq_refl).
        intros before' c' a' later' E'.
        destruct before' as [|ev before']; [discriminate|].
        simpl in E'. injection E' as <- E'.
        destruct (Hc before' c' a' later' E') as [Hc' Ha'].
        fold cursor in Hc'. split; [exact Hc'|].
        rewrite Ha'. f_equal.
  - exists [Asked cursor RequestFailed]. cbn [fst snd].
    split; [reflexivity|]. split; [unfold requests_made; simpl; lia|]. split; [discriminate|].
    intros before c a later E.
    apply (Hfirst RequestFailed [] before c a later E eq_refl).
    intros [|? ?] ? ? ? H; discriminate.
  - exists [Asked cursor ErrorBody]. cbn [fst snd].
    split; [reflexivity|]. split; [unfold requests_made; simpl; lia|]. split; [discriminate|].
    intros before c a later E.
    apply (Hfirst ErrorBody [] before c a later E eq_refl).
    intros [|? ?] ? ? ? H; discriminate.
  - (* a page followed by another *)
    destruct (IH (S n) (all_users ++ users) sa 0
                (log ++ [Asked cursor (Page users (Some sa))]))
      as (new & Hlog & Hreq & Husers & Hc).
    exists (Asked cursor (Page users (Some sa)) :: new).
    split; [rewrite Hlog, <- app_assoc; reflexivity|].
    split; [unfold requests_made in *; simpl; lia|].
    split.
    + intros users0 Hres. rewrite (Husers users0 Hres), <- app_assoc.
      reflexivity.
    + intros before c a later E.
      apply (Hfirst (Page users (Some sa)) new before c a later E eq_refl).
      exact Hc.
  - (* the last page *)
    exists [Asked cursor (Page users None)]. cbn [fst snd].
    split; [reflexivity|]. split; [unfold requests_made; simpl; lia|]. split.
    + intros users0 H. injection H as <-. unfold users_received. simpl.
      now rewrite app_nil_r.
    + intros before c a later E.
      apply (Hfirst (Page users None) [] before c a later E eq_refl).
      intros [|? ?] ? ? ? H; discriminate.
Qed.

(** X18. What [fetch_all_users] returns is the users of the pages it
    received, in the order received, nothing else: a request answered with
    429 adds no user and no page is taken twice.  It has then made at most
    as many requests as it was allowed. *)
Theorem fetch_returns_the_pages_in_order :
  forall (api : nat -> option string -> api_response) (fuel : nat)
         (users : list user) (log : list fetch_event),
    fetch_all_users api fuel = (Fetched users, log) ->
    users = users_received log /\
    requests_made log <= fuel /\
    length users =
      list_sum (map (fun ev => match ev with
                               | Asked _ (Page users_on_page _) =>
                                   length users_on_page
                               | _ => 0
                               end) log).
Proof.
  intros api fuel users log H. unfold fetch_all_users in H.
  destruct (fetch_loop_adds api fuel 0 [] None 0 [])
    as (new & Hlog & Hreq & Husers & _).
  rewrite H in Hlog, Husers. cbn [fst snd app] in Hlog, Husers. subst new.
  assert (Hu : users = users_received log) by (apply (Husers users eq_refl)).
  split; [exact Hu|]. split; [exact Hreq|].
  rewrite Hu. unfold users_received.
  rewrite flat_map_concat_map, length_concat, map_map. f_equal.
  apply map_ext. intros [c [ra| | |users_on_page next]|seconds]; reflexivity.
Qed.

Lemma fetch_returns_the_pages_in_order_witness :
  fetch_all_users sample_api 10 =
    (Fetched sample_window,
     [ Asked None (RateLimited None); Waited 10;
       Asked None (Page (firstn 2 sample_window) (Some (Some "cursor-1")));
       Asked (Some "cursor-1") (RateLimited (Some 3)); Waited 3;
       Asked (Some "cursor-1") (Page (skipn 2 sample_window) None) ]) /\
  sample_window =
    users_received
      [ Asked None (RateLimited None); Waited 10;
        Asked None (Page (firstn 2 sample_window) (Some (Some "cursor-1")));
        Asked (Some "cursor-1") (RateLimited (Some 3)); Waited 3;
        Asked (Some "cursor-1") (Page (skipn 2 sample_window) None) ].
Proof.
  split; [reflexivity|].
  apply (fetch_returns_the_pages_in_order sample_api 10 sample_window).
  reflexivity.
Defined.

(** X19. Every request of a fetch carries the cursor of the last page
    received before it, and none before the first page or when that cursor
    is missing or empty; a request repeated after a 429 carries the same
    cursor again.  The request is the next in number. *)
Theorem fetch_requests_follow_the_cursor :
  forall (api : nat -> option string -> api_response) (fuel : nat)
         (before later : list fetch_event) (c : option string)
         (a : api_response),
    snd (fetch_all_users api fuel) = before ++ Asked c a :: later ->
    c = cursor_after before None /\
    a = api (requests_made before) c.
Proof.
  intros api fuel before later c a H. unfold fetch_all_users in H.
  destruct (fetch_loop_adds api fuel 0 [] None 0 [])
    as (new & Hlog & _ & _ & Hc).
  rewrite H in Hlog. cbn [app] in Hlog.
  apply (Hc before c a later (eq_sym Hlog)).
Qed.

Lemma fetch_requests_follow_the_cursor_witness :
  snd (fetch_all_users sample_api 10) =
    [ Asked None (RateLimited None); Waited 10;
      Asked None (Page (firstn 2 sample_window) (Some (Some "cursor-1"))) ] ++
    Asked (Some "cursor-1") (RateLimited (Some 3)) ::
    [ Waited 3; Asked (Some "cursor-1") (Page (skipn 2 sample_window) None) ] /\
  Some "cursor-1" =
    cursor_after
      [ Asked None (RateLimited None); Waited 10;
        Asked None (Page (firstn 2 sample_window) (Some (Some "cursor-1"))) ]
      None /\
  RateLimited (Some 3) =
    sample_api
      (requests_made
         [ Asked None (RateLimited None); Waited 10;
           Asked None (Page (firstn 2 sample_window) (Some (Some "cursor-1"))) ])
      (Some "cursor-1").
Proof.
  split; [reflexivity|].
  apply (fetch_requests_follow_the_cursor sample_api 10 _
           [ Waited 3; Asked (Some "cursor-1") (Page (skipn 2 sample_window) None) ]).
  reflexivity.
Defined.

(** After [k] answers 429 in a row the loop has counted [k] retries. *)
Lemma fetch_loop_retries api k :
  forall fuel n all_users starting_after retry_count log,
    retry_count + k <= 5 ->
    (forall j, j < k ->
       exists ra,
         api (n + j) (if truthy starting_after then starting_after else None)
           = RateLimited ra) ->
    fst (fetch_loop api (k + fuel) n all_users starting_after retry_count log) =
    fst (fetch_loop api fuel (n + k) all_users starting_after
           (retry_count + k) log).
Proof.
  induction k as [|k IH]; intros fuel n all_users starting_after retry_count
    log Hle Hall.
  - simpl. now rewrite !Nat.add_0_r.
  - cbn [plus fetch_loop].
    destruct (Hall 0) as (ra & Hra); [lia|]. rewrite Nat.add_0_r in Hra.
    rewrite Hra.
    destruct (Nat.leb_spec 5 retry_count) as [H5|_]; [lia|].
    rewrite (IH fuel (S n) all_users starting_after (retry_count + 1) _);
      [|lia|].
    + replace (S n + k) with (n + S k) by lia.
      replace (retry_count + 1 + k) with (retry_count + S k) by lia.
      apply fetch_loop_result.
    + intros j Hj. replace (S n + j) with (n + S j) by lia.
      apply Hall. lia.
Qed.

(** X20. The fetch retries a rate-limited request at most five times in a
    row.  Up to five consecutive 429 answers before a page are absorbed:
    the run goes on from that page as if they had not occurred, the count
    of retries starting again from zero; a sixth consecutive 429 makes it
    exit. *)
Theorem fetch_gives_up_after_five_retries :
  forall (api : nat -> option string -> api_response) (fuel n k : nat)
         (all_users : list user) (starting_after : option string)
         (log : list fetch_event),
    k <= 5 ->
    (forall j, j < k ->
       exists ra,
         api (n + j) (if truthy starting_after then starting_after else None)
           = RateLimited ra) ->
    (forall users_on_page next,
       api (n + k) (if truthy starting_after then starting_after else None)
         = Page users_on_page next ->
       fst (fetch_loop api (k + S fuel) n all_users starting_after 0 log) =
       match next with
       | None => Fetched (all_users ++ users_on_page)
       | Some cursor =>
           fst (fetch_loop api fuel (n + k + 1) (all_users ++ users_on_page)
                  cursor 0 log)
       end) /\
    (k = 5 ->
     (exists ra,
        api (n + 5) (if truthy starting_after then starting_after else None)
          = RateLimited ra) ->
     fst (fetch_loop api (k + S fuel) n all_users starting_after 0 log)
       = Exited).
Proof.
  intros api fuel n k all_users starting_after log Hk Hall.
  pose proof (fetch_loop_retries api k (S fuel) n all_users starting_after 0 log)
    as Hrun.
  rewrite Hrun by (auto; lia). cbn [plus fetch_loop]. split.
  - intros users_on_page next Hpage. rewrite Hpage.
    destruct next as [cursor|]; [|reflexivity].
    replace (S (n + k)) with (n + k + 1) by lia. apply fetch_loop_result.
  - intros -> (ra & Hra). rewrite Hra. reflexivity.
Qed.

Lemma fetch_gives_up_after_five_retries_witness :
  1 <= 5 /\
  (forall j, j < 1 ->
     exists ra, sample_api (0 + j) (if truthy None then None else None)
                = RateLimited ra) /\
  (forall users_on_page next,
     sample_api (0 + 1) (if truthy None then None else None)
       = Page users_on_page next ->
     fst (fetch_loop sample_api (1 + S 8) 0 [] None 0 []) =
     match next with
     | None => Fetched ([] ++ users_on_page)
     | Some cursor =>
         fst (fetch_loop sample_api 8 (0 + 1 + 1) ([] ++ users_on_page)
                cursor 0 [])
     end).
Proof.
  assert (H : forall j, j < 1 ->
            exists ra, sample_api (0 + j) (if truthy None then None else None)
                       = RateLimited ra).
  { intros j Hj. exists None. destruct j; [reflexivity | lia]. }
  split; [lia|]. split; [exact H|].
  apply (fetch_gives_up_after_five_retries sample_api 8 0 1 [] None []);
    [lia | exact H].
Defined.
